(** * dslgen: the Polars/Lark grammar demo, embedded and verified

    A shallow embedding of [src/dslgen/demo_polars_lark.py]:

    - the API reflector ([find_object_by_name], [build_polars_api_map]),
    - the return-type normaliser ([_flatten_expr_attribute] and the
      [returns] dispatch of [build_polars_api_map]),
    - the grammar synthesiser ([generate_lark_grammar]).

    Python strings are modelled as [string]; the only string operations the
    program uses are equality, [endswith], [upper] (only ever applied to
    members of the two ASCII allow-lists), concatenation and [join].
    A Python [dict] is modelled as an association list in insertion order
    (iteration order is observable in the generated text). *)

From Stdlib Require Import List String Ascii Bool Arith Lia Permutation.
Import ListNotations.
#[local] Set Warnings "-register-all".
Local Open Scope list_scope.
Local Open Scope string_scope.

(** ** Python string helpers *)

Module Py.

(** [sep.join(parts)] *)
Definition join (sep : string) (parts : list string) : string :=
String.concat sep parts.

(** [s.endswith(suffix)]: the last [len(suffix)] characters of [s] are
  [suffix]. *)
Definition endswith (s suffix : string) : bool :=
let n := String.length s in
let k := String.length suffix in
(k <=? n)%nat && String.eqb (substring (n - k) k s) suffix.

(** [c.upper()] on an ASCII character. *)
Definition upper_ascii (c : ascii) : ascii :=
let n := nat_of_ascii c in
if ((97 <=? n) && (n <=? 122))%nat then ascii_of_nat (n - 32) else c.

(** [s.upper()] on an ASCII string. *)
Fixpoint upper (s : string) : string :=
match s with
| EmptyString => EmptyString
| String c rest => String (upper_ascii c) (upper rest)
end.

(** [x in xs] for a list of strings. *)
Definition mem (x : string) (xs : list string) : bool :=
existsb (String.eqb x) xs.

(** A [dict] in insertion order. *)
Definition dict (V : Type) : Type := list (string * V).

Definition keys {V} (d : dict V) : list string := map fst d.
Definition values {V} (d : dict V) : list V := map snd d.

(** [d.get(k)] *)
Fixpoint get {V} (d : dict V) (k : string) : option V :=
match d with
| [] => None
| (k', v) :: rest => if String.eqb k' k then Some v else get rest k
end.

(** [d.get(k, default)] *)
Definition get_default {V} (d : dict V) (k : string) (default : V) : V :=
match get d k with
| Some v => v
| None => default
end.

(** [d[k] = v]: overwrite in place when [k] is present, append otherwise. *)
Fixpoint set {V} (d : dict V) (k : string) (v : V) : dict V :=
match d with
| [] => [(k, v)]
| (k', v') :: rest =>
    if String.eqb k' k then (k', v) :: rest else (k', v') :: set rest k v
end.

End Py.

(** ** Data model (Griffe objects as the program reads them) *)

(** A return annotation: [ExprName], [ExprAttribute] or any other
    expression node, of which the program only ever takes [str(...)]. *)
Inductive expr : Type :=
| ExprName (name : string)
| ExprAttribute (values : list expr)
| ExprOther (rendering : string).

(** A member-tree node with the four attributes the program reads:
    [name], [members], [is_function] and [returns]. *)
Inductive node : Type :=
| Node (name : string) (members : Py.dict node)
       (is_function : bool) (returns : option expr).

Definition name (n : node) : string :=
  match n with Node nm _ _ _ => nm end.
Definition members (n : node) : Py.dict node :=
  match n with Node _ ms _ _ => ms end.
Definition is_function (n : node) : bool :=
  match n with Node _ _ f _ => f end.
Definition returns (n : node) : option expr :=
  match n with Node _ _ _ r => r end.

(** ** API reflector *)

(** [find_object_by_name(module, target_name)], lines 19-35. *)
Fixpoint find_object_by_name (module : node) (target_name : string)
  : option node :=
  match module with
  | Node nm ms _ _ =>
      if Py.endswith nm target_name then Some module
      else
        match find (fun member => Py.endswith (name member) target_name)
                   (Py.values ms) with
        | Some member => Some member
        | None =>
            (fix loop (rest : Py.dict node) : option node :=
               match rest with
               | [] => None
               | (_, member) :: rest' =>
                   match find_object_by_name member target_name with
                   | Some found => Some found
                   | None => loop rest'
                   end
               end) ms
        end
  end.

(** The same search with an explicit recursion budget: [None] means the
    budget ran out, [Some r] that the call returned [r].  One unit of
    budget is spent per nested call, as on the Python call stack. *)
Fixpoint find_object_by_name_fuel (fuel : nat) (module : node)
  (target_name : string) : option (option node) :=
  match fuel with
  | O => None
  | S fuel' =>
      if Py.endswith (name module) target_name then Some (Some module)
      else
        match find (fun member => Py.endswith (name member) target_name)
                   (Py.values (members module)) with
        | Some member => Some (Some member)
        | None =>
            (fix loop (rest : list node) : option (option node) :=
               match rest with
               | [] => Some None
               | member :: rest' =>
                   match find_object_by_name_fuel fuel' member target_name with
                   | None => None
                   | Some (Some found) => Some (Some found)
                   | Some None => loop rest'
                   end
               end) (Py.values (members module))
        end
  end.

(** The second loop of the search (lines 30-33) over a list of members. *)
Fixpoint search_each (target_name : string) (rest : list node) : option node :=
  match rest with
  | [] => None
  | member :: rest' =>
      match find_object_by_name member target_name with
      | Some found => Some found
      | None => search_each target_name rest'
      end
  end.

(** The members on which one invocation calls itself recursively (the
    second loop, lines 30-33): none when the node itself or an immediate
    child matches, otherwise the children up to and including the first
    one whose subtree holds a match. *)
Fixpoint callees_loop (target_name : string) (rest : list node) : list node :=
  match rest with
  | [] => []
  | member :: rest' =>
      member ::
      match find_object_by_name member target_name with
      | Some _ => []
      | None => callees_loop target_name rest'
      end
  end.

Definition callees (module : node) (target_name : string) : list node :=
  if Py.endswith (name module) target_name then []
  else
    match find (fun member => Py.endswith (name member) target_name)
               (Py.values (members module)) with
    | Some _ => []
    | None => callees_loop target_name (Py.values (members module))
    end.

(** Longest path from a node down to a leaf. *)
Fixpoint height (n : node) : nat :=
  match n with
  | Node _ ms _ _ =>
      (fix go (rest : Py.dict node) : nat :=
         match rest with
         | [] => 0
         | (_, child) :: rest' => Nat.max (S (height child)) (go rest')
         end) ms
  end.

(** The order in which the search examines names: the node itself, its
    immediate children, then the same order inside each child in turn. *)
Fixpoint examination_order (module : node) : list node :=
  match module with
  | Node _ ms _ _ =>
      module ::
      (Py.values ms ++
       (fix go (rest : Py.dict node) : list node :=
          match rest with
          | [] => []
          | (_, child) :: rest' => examination_order child ++ go rest'
          end) ms)%list
  end.

(** [n] is [t] or one of its descendants. *)
Inductive in_tree (n : node) : node -> Prop :=
| in_tree_here : in_tree n n
| in_tree_child t child :
    In child (Py.values (members t)) -> in_tree n child -> in_tree n t.

(** ** Return-type normaliser *)

(** Loop body of [_flatten_expr_attribute] (lines 44-52): [parts] is the
    accumulator, [val] the element visited; the nested call runs the loop
    on the nested chain's values from an empty accumulator and extends
    [parts] by its result. *)
Fixpoint flatten_step (parts : list string) (val : expr) : list string :=
  match val with
  | ExprName name => (parts ++ [name])%list
  | ExprAttribute values => (parts ++ fold_left flatten_step values [])%list
  | ExprOther rendering => (parts ++ [rendering])%list
  end.

(** [_flatten_expr_attribute(expr_attr)], taking [expr_attr.values]. *)
Definition _flatten_expr_attribute (values : list expr) : list string :=
  fold_left flatten_step values [].

(** The [returns] dispatch on [subobj.returns], lines 87-101. *)
Definition normalize_returns (ann : option expr) : option string :=
  match ann with
  | None => None
  | Some (ExprName name) => Some name
  | Some (ExprAttribute values) =>
      let chain := _flatten_expr_attribute values in
      Some (Py.join "." chain)
  | Some (ExprOther rendering) => Some rendering
  end.

(** The normaliser as the specification words it. *)
Module Reference.

(** What one element of a chain contributes. *)
Fixpoint contributes (element : expr) : list string :=
  match element with
  | ExprName name => [name]
  | ExprAttribute values => List.concat (map contributes values)
  | ExprOther rendering => [rendering]
  end.

Definition flatten (values : list expr) : list string :=
  List.concat (map contributes values).

Definition normalize (ann : option expr) : option string :=
  match ann with
  | None => None
  | Some (ExprName name) => Some name
  | Some (ExprAttribute values) => Some (Py.join "." (flatten values))
  | Some (ExprOther rendering) => Some rendering
  end.

End Reference.

(** A chain as the data model describes it: at every nesting level a
    non-empty list whose elements are names or chains of the same kind. *)
Fixpoint plain_element (v : expr) : bool :=
  match v with
  | ExprName _ => true
  | ExprAttribute inner =>
      match inner with [] => false | _ :: _ => forallb plain_element inner end
  | ExprOther _ => false
  end.

Definition plain_chain (values : list expr) : bool :=
  plain_element (ExprAttribute values).

(** [n] is the name of an [ExprName] occurring in the chain. *)
Inductive name_in_chain (n : string) : list expr -> Prop :=
| name_here values : In (ExprName n) values -> name_in_chain n values
| name_nested values inner :
    In (ExprAttribute inner) values -> name_in_chain n inner ->
    name_in_chain n values.

(** ** API map construction *)

Definition interesting_classes : list string :=
  ["DataFrame"; "LazyFrame"; "Expr"].

Definition api_map : Type := Py.dict (Py.dict (option string)).

(** Lines 76-80. *)
Definition found_objects (polars_module : node) : Py.dict node :=
  fold_left
    (fun found cls_name =>
       match find_object_by_name polars_module cls_name with
       | Some obj => Py.set found cls_name obj
       | None => found
       end)
    interesting_classes [].

(** Lines 84-103: the methods of one class. *)
Definition methods_dict (cls_obj : node) : Py.dict (option string) :=
  fold_left
    (fun methods '(subname, subobj) =>
       if is_function subobj
       then Py.set methods subname (normalize_returns (returns subobj))
       else methods)
    (members cls_obj) [].

(** [build_polars_api_map()], lines 75-107, as a function of the member
    tree that [load] returned. *)
Definition build_polars_api_map (polars_module : node) : api_map :=
  fold_left
    (fun api '(cls_name, cls_obj) => Py.set api cls_name (methods_dict cls_obj))
    (found_objects polars_module) [].

(** ** Grammar synthesiser *)

(** The double-quote and newline characters, as one-character strings. *)
Definition dq : string := String (ascii_of_nat 34) EmptyString.
Definition nl : string := String (ascii_of_nat 10) EmptyString.

(** A double-quoted literal of the grammar text. *)
Definition quoted (s : string) : string := dq ++ s ++ dq.

(** [grammar_prelude], lines 118-130, one entry per line of the raw string. *)
Definition grammar_prelude_lines : list string :=
  [ EmptyString;
    "    ?start: polars_expression";
    EmptyString;
    "    // Let's define a rule that can represent either a DataFrame chain or a LazyFrame chain.";
    "    ?polars_expression: dataframe_expression";
    "                      | lazyframe_expression";
    EmptyString;
    "    // For this demo, let's treat " ++ quoted "df = pl.DataFrame(...)" ++ " as a single token, ignoring arguments.";
    "    DATAFRAME_CALL: " ++ quoted "pl.DataFrame" ++ " " ++ quoted "(" ++ " /[^)]*/ " ++ quoted ")";
    EmptyString;
    "    // We'll do the same for " ++ quoted "df.lazy()" ++ " calls, ignoring what's inside.";
    "    LAZYFRAME_CALL: " ++ quoted ".lazy" ++ " " ++ quoted "(" ++ " " ++ quoted ")";
    "    " ].

Definition grammar_prelude : string := Py.join nl grammar_prelude_lines.

(** [grammar_mid], lines 147-153. *)
Definition grammar_mid_lines : list string :=
  [ EmptyString;
    "    ?dataframe_expression: DATAFRAME_CALL dataframe_chain?";
    "    ?lazyframe_expression: DATAFRAME_CALL LAZYFRAME_CALL lazyframe_chain?";
    EmptyString;
    "    dataframe_chain: (DF_METHOD_CALL)+";
    "    lazyframe_chain: (LF_METHOD_CALL)+";
    "    " ].

Definition grammar_mid : string := Py.join nl grammar_mid_lines.

Definition known_df_methods : list string :=
  ["select"; "filter"; "groupby"; "join"; "lazy"].
Definition known_lf_methods : list string :=
  ["collect"; "filter"; "select"; "groupby"].

(** Lines 132-133 and 138-139: iterating a dict yields its keys in
    insertion order. *)
Definition df_methods (api : api_map) : Py.dict (option string) :=
  Py.get_default api "DataFrame" [].
Definition lf_methods (api : api_map) : Py.dict (option string) :=
  Py.get_default api "LazyFrame" [].

Definition dataframe_methods (api : api_map) : list string :=
  filter (fun m => Py.mem m known_df_methods) (Py.keys (df_methods api)).
Definition lazyframe_methods (api : api_map) : list string :=
  filter (fun m => Py.mem m known_lf_methods) (Py.keys (lf_methods api)).

(** Line 144, the f-string. *)
Definition method_rule (method : string) : string :=
  let uppercase_name := Py.upper method in
  uppercase_name ++ ": " ++ quoted ("." ++ method) ++ " " ++ quoted "("
    ++ " /[^)]*/ " ++ quoted ")".

(** Lines 155-156. *)
Definition df_method_call_tokens (api : api_map) : list string :=
  map Py.upper (dataframe_methods api).
Definition lf_method_call_tokens (api : api_map) : list string :=
  map Py.upper (lazyframe_methods api).

(** Lines 158-167: an empty list is falsy. *)
Definition df_call_rule (api : api_map) : string :=
  match df_method_call_tokens api with
  | [] => "DF_METHOD_CALL: /NO_DF_METHODS/"
  | _ :: _ => "DF_METHOD_CALL: " ++ Py.join " | " (df_method_call_tokens api)
  end.
Definition lf_call_rule (api : api_map) : string :=
  match lf_method_call_tokens api with
  | [] => "LF_METHOD_CALL: /NO_LF_METHODS/"
  | _ :: _ => "LF_METHOD_CALL: " ++ Py.join " | " (lf_method_call_tokens api)
  end.

Section Synthesizer.

(** Iteration order of [set(xs)].  Which order CPython picks depends on
    the string hashes of the run; within one run it is a function of the
    list the set is built from. *)
Variable set_iter : list string -> list string.

(** Lines 141-145. *)
Definition recognized_methods (api : api_map) : list string :=
  set_iter (dataframe_methods api ++ lazyframe_methods api)%list.

Definition method_rules (api : api_map) : list string :=
  map method_rule (recognized_methods api).

(** [generate_lark_grammar(api_map)], lines 110-179. *)
Definition generate_lark_grammar (api : api_map) : string :=
  Py.join nl
    [ grammar_prelude;
      Py.join nl (method_rules api);
      grammar_mid;
      df_call_rule api;
      lf_call_rule api ].

End Synthesizer.

(** Two iteration orders a run may exhibit: first-insertion order, and its
    reverse. *)
Definition insertion_order (xs : list string) : list string :=
  rev (nodup string_dec (rev xs)).
Definition reverse_insertion_order (xs : list string) : list string :=
  nodup string_dec (rev xs).

(** ** Reading the grammar text back *)

(** [text.split(newline)]. *)
Fixpoint split_lines (text : string) : list string :=
  match text with
  | EmptyString => [EmptyString]
  | String c rest =>
      if Ascii.eqb c (ascii_of_nat 10) then EmptyString :: split_lines rest
      else
        match split_lines rest with
        | [] => [String c EmptyString]
        | line :: lines => String c line :: lines
        end
  end.

(** Leading blanks of a line carry no meaning in a grammar file. *)
Fixpoint lstrip (line : string) : string :=
  match line with
  | String c rest => if Ascii.eqb c " "%char then lstrip rest else line
  | EmptyString => EmptyString
  end.

(** The line opens the definition of the rule or terminal called [rule]:
    after the indentation it reads [rule] followed by a colon. *)
Definition defines (rule : string) (line : string) : bool :=
  String.prefix (rule ++ ":") (lstrip line).

(** The lines of a grammar text that define [rule]. *)
Definition definitions_of (rule : string) (grammar : string) : list string :=
  filter (defines rule) (split_lines grammar).

(** First non-blank character is an upper-case letter: the line defines a
    terminal (terminal names are upper case, rule names lower case). *)
Definition is_upper_ascii (c : ascii) : bool :=
  let n := nat_of_ascii c in ((65 <=? n) && (n <=? 90))%nat.

Definition defines_terminal (line : string) : bool :=
  match lstrip line with
  | String c _ => is_upper_ascii c
  | EmptyString => false
  end.

(** The terminal definitions of a grammar text, indentation removed. *)
Definition terminal_lines (grammar : string) : list string :=
  map lstrip (filter defines_terminal (split_lines grammar)).

(** The four terminals whose names are fixed by the templates. *)
Definition fixed_terminals : list string :=
  ["DATAFRAME_CALL"; "LAZYFRAME_CALL"; "DF_METHOD_CALL"; "LF_METHOD_CALL"].

(** The remaining terminal definitions: the per-method rules. *)
Definition method_terminal_lines (grammar : string) : list string :=
  filter (fun line => negb (existsb (fun t => defines t line) fixed_terminals))
         (terminal_lines grammar).

(** ** What the grammar text means to the parser generator

    The parser generator is a library; the development reads the
    generated text the way its grammar language defines it: a terminal is
    a sequence of string literals and [/regular expressions/] matched
    back to back, or a choice between named terminals; blanks in the input
    are not skipped (the grammar has no ignore directive). *)
Module Lark.

(** The regular expressions the templates use. *)
Inductive regex : Type :=
| Eps
| Chr (c : ascii)
| NotChr (c : ascii)
| Cat (r1 r2 : regex)
| Star (r : regex).

(** The regular expression that reads [s] character by character. *)
Fixpoint literally (s : string) : regex :=
  match s with
  | EmptyString => Eps
  | String c rest => Cat (Chr c) (literally rest)
  end.

(** Pattern text of a regular expression. *)
Fixpoint render_regex (r : regex) : string :=
  match r with
  | Eps => EmptyString
  | Chr c => String c EmptyString
  | NotChr c => "[^" ++ String c EmptyString ++ "]"
  | Cat r1 r2 => render_regex r1 ++ render_regex r2
  | Star r => render_regex r ++ "*"
  end.

(** [matches r s]: the whole of [s] matches [r]. *)
Fixpoint matches (r : regex) (s : string) : Prop :=
  match r with
  | Eps => s = EmptyString
  | Chr c => s = String c EmptyString
  | NotChr c => exists d, d <> c /\ s = String d EmptyString
  | Cat r1 r2 => exists s1 s2, s = s1 ++ s2 /\ matches r1 s1 /\ matches r2 s2
  | Star r => exists pieces, s = String.concat EmptyString pieces
                             /\ Forall (matches r) pieces
  end.

Inductive item : Type :=
| Lit (s : string)
| Re (r : regex).

Inductive terminal_def : Type :=
| Pattern (items : list item)
| OneOf (names : list string).

Definition terminal_table : Type := list (string * terminal_def).

Definition render_item (i : item) : string :=
  match i with
  | Lit s => quoted s
  | Re r => "/" ++ render_regex r ++ "/"
  end.

Definition render_def (d : terminal_def) : string :=
  match d with
  | Pattern items => Py.join " " (map render_item items)
  | OneOf names => Py.join " | " names
  end.

Definition render_terminal (t : string * terminal_def) : string :=
  fst t ++ ": " ++ render_def (snd t).

Definition item_regex (i : item) : regex :=
  match i with
  | Lit s => literally s
  | Re r => r
  end.

Definition pattern_regex (items : list item) : regex :=
  fold_right (fun i r => Cat (item_regex i) r) Eps items.

Definition pattern_matches (items : list item) (s : string) : Prop :=
  matches (pattern_regex items) s.

Section Language.

Variable table : terminal_table.

(** [s] is one token of the terminal called [terminal]. *)
Definition token (terminal : string) (s : string) : Prop :=
  exists d, In (terminal, d) table /\
    match d with
    | Pattern items => pattern_matches items s
    | OneOf names =>
        exists n items, In n names /\ In (n, Pattern items) table
                        /\ pattern_matches items s
    end.

(** [dataframe_chain: (DF_METHOD_CALL)+] *)
Definition dataframe_chain (s : string) : Prop :=
  exists calls, calls <> [] /\ s = String.concat EmptyString calls
                /\ Forall (token "DF_METHOD_CALL") calls.

(** [lazyframe_chain: (LF_METHOD_CALL)+] *)
Definition lazyframe_chain (s : string) : Prop :=
  exists calls, calls <> [] /\ s = String.concat EmptyString calls
                /\ Forall (token "LF_METHOD_CALL") calls.

(** [?dataframe_expression: DATAFRAME_CALL dataframe_chain?] *)
Definition dataframe_expression (s : string) : Prop :=
  exists call rest, s = call ++ rest /\ token "DATAFRAME_CALL" call
                    /\ (rest = EmptyString \/ dataframe_chain rest).

(** [?lazyframe_expression: DATAFRAME_CALL LAZYFRAME_CALL lazyframe_chain?] *)
Definition lazyframe_expression (s : string) : Prop :=
  exists call lazy rest,
    s = call ++ lazy ++ rest /\ token "DATAFRAME_CALL" call
    /\ token "LAZYFRAME_CALL" lazy
    /\ (rest = EmptyString \/ lazyframe_chain rest).

(** [?polars_expression: dataframe_expression | lazyframe_expression] *)
Definition polars_expression (s : string) : Prop :=
  dataframe_expression s \/ lazyframe_expression s.

(** [?start: polars_expression] *)
Definition start (s : string) : Prop := polars_expression s.

End Language.

End Lark.

(** [/[^)]*/] *)
Definition no_rparen_run : Lark.regex := Lark.Star (Lark.NotChr ")"%char).

(** The terminal that [method_rule] writes for [method]. *)
Definition method_pattern (method : string) : list Lark.item :=
  [Lark.Lit ("." ++ method); Lark.Lit "("; Lark.Re no_rparen_run; Lark.Lit ")"].

Definition method_terminal (method : string) : string * Lark.terminal_def :=
  (Py.upper method, Lark.Pattern (method_pattern method)).

Definition df_call_terminal (api : api_map) : string * Lark.terminal_def :=
  ("DF_METHOD_CALL",
   match df_method_call_tokens api with
   | [] => Lark.Pattern [Lark.Re (Lark.literally "NO_DF_METHODS")]
   | _ :: _ => Lark.OneOf (df_method_call_tokens api)
   end).

Definition lf_call_terminal (api : api_map) : string * Lark.terminal_def :=
  ("LF_METHOD_CALL",
   match lf_method_call_tokens api with
   | [] => Lark.Pattern [Lark.Re (Lark.literally "NO_LF_METHODS")]
   | _ :: _ => Lark.OneOf (lf_method_call_tokens api)
   end).

(** The two call terminals of the prelude. *)
Definition dataframe_call_terminal : string * Lark.terminal_def :=
  ("DATAFRAME_CALL",
   Lark.Pattern [Lark.Lit "pl.DataFrame"; Lark.Lit "(";
                 Lark.Re no_rparen_run; Lark.Lit ")"]).

Definition lazyframe_call_terminal : string * Lark.terminal_def :=
  ("LAZYFRAME_CALL",
   Lark.Pattern [Lark.Lit ".lazy"; Lark.Lit "("; Lark.Lit ")"]).

(** The terminals of the generated grammar, in the order of the text. *)
Definition terminals (set_iter : list string -> list string) (api : api_map)
  : Lark.terminal_table :=
  ([ dataframe_call_terminal; lazyframe_call_terminal ]
   ++ map method_terminal (recognized_methods set_iter api)
   ++ [ df_call_terminal api; lf_call_terminal api ])%list.

(** [parser.parse(s)] succeeds only on the strings the grammar derives. *)
Definition derives (set_iter : list string -> list string) (api : api_map)
  (s : string) : Prop :=
  Lark.start (terminals set_iter api) s.

(** No closing parenthesis in [s]. *)
Fixpoint no_rparen (s : string) : bool :=
  match s with
  | EmptyString => true
  | String c rest => negb (Ascii.eqb c ")"%char) && no_rparen rest
  end.

(** No newline in [s]. *)
Fixpoint no_newline (s : string) : bool :=
  match s with
  | EmptyString => true
  | String c rest => negb (Ascii.eqb c (ascii_of_nat 10)) && no_newline rest
  end.

(** Every name of the two allow-lists. *)
Definition allowed_methods : list string :=
  ["select"; "filter"; "groupby"; "join"; "lazy"; "collect"].

(** ** Sample inputs *)

(** The snippet of [test_invalid_snippets] that calls a lazy-only method
    on the eager frame: [pl.DataFrame({"x": [1,2,3]}).collect()]. *)
Definition collect_snippet : string :=
  "pl.DataFrame({" ++ quoted "x" ++ ": [1,2,3]}).collect()".

(** A snippet of [test_valid_snippets]:
    [pl.DataFrame({"x": [1,2,3]}).lazy().filter(x > 1).select("x")]. *)
Definition lazy_snippet : string :=
  "pl.DataFrame({" ++ quoted "x" ++ ": [1,2,3]}).lazy().filter(x > 1).select("
    ++ quoted "x" ++ ")".

(** A small member tree: a module with two classes, one nested in a
    submodule, and their methods. *)
Definition demo_module : node :=
  Node "polars"
    [ ("dataframe",
       Node "dataframe"
         [ ("DataFrame",
            Node "DataFrame"
              [ ("filter", Node "filter" [] true (Some (ExprName "DataFrame")));
                ("lazy", Node "lazy" [] true (Some (ExprName "LazyFrame")));
                ("collect", Node "collect" [] true None);
                ("shape", Node "shape" [] false None) ]
              false None) ]
         false None);
      ("LazyFrame",
       Node "LazyFrame"
         [ ("collect",
            Node "collect" [] true
              (Some (ExprAttribute [ExprName "pl"; ExprName "DataFrame"])));
           ("filter", Node "filter" [] true (Some (ExprOther "Self")));
           ("select", Node "select" [] true None) ]
         false None) ]
    false None.

(** The API map discovered from [demo_module]. *)
Definition demo_api : api_map := build_polars_api_map demo_module.

(** The same method names with every return type erased. *)
Definition demo_api_untyped : api_map :=
  map (fun '(cls, methods) => (cls, map (fun '(m, _) => (m, None)) methods))
      demo_api.

(** ** Measures of the search *)

(** Number of nodes of a member tree. *)
Fixpoint size (n : node) : nat :=
  match n with
  | Node _ ms _ _ =>
      S ((fix go (rest : Py.dict node) : nat :=
            match rest with
            | [] => 0
            | (_, child) :: rest' => size child + go rest'
            end) ms)
  end.

(** Number of elements a loop with an early return looks at: all of them,
    or those up to and including the first that passes the test. *)
Fixpoint tests_until {A} (p : A -> bool) (xs : list A) : nat :=
  match xs with
  | [] => 0
  | x :: xs' => S (if p x then 0 else tests_until p xs')
  end.

(** Number of [endswith] tests one call of [find_object_by_name] performs,
    those of its recursive calls included: line 23 once, line 27 once per
    member the first loop reaches, and the tests of each call of line 31. *)
Fixpoint name_tests (module : node) (target_name : string) : nat :=
  match module with
  | Node nm ms _ _ =>
      S (if Py.endswith nm target_name then 0
         else
           tests_until (fun member => Py.endswith (name member) target_name)
                       (Py.values ms)
           + match find (fun member => Py.endswith (name member) target_name)
                        (Py.values ms) with
             | Some _ => 0
             | None =>
                 (fix loop (rest : Py.dict node) : nat :=
                    match rest with
                    | [] => 0
                    | (_, member) :: rest' =>
                        name_tests member target_name
                        + match find_object_by_name member target_name with
                          | Some _ => 0
                          | None => loop rest'
                          end
                    end) ms
             end)
  end.

(** The tests of the second loop over a list of members. *)
Fixpoint tests_each (target_name : string) (rest : list node) : nat :=
  match rest with
  | [] => 0
  | member :: rest' =>
      name_tests member target_name
      + match find_object_by_name member target_name with
        | Some _ => 0
        | None => tests_each target_name rest'
        end
  end.

(** Body of a loop that records, under its key, the converted value of
    each item that passes a test (the inner loop of
    [build_polars_api_map], lines 85-103). *)
Definition record_if {A V} (keep : A -> bool) (convert : A -> V)
  (acc : Py.dict V) (item : string * A) : Py.dict V :=
  let '(k, a) := item in
  if keep a then Py.set acc k (convert a) else acc.

(** ** The driver and the snippets of the test suite *)

(** The snippet [main] parses (line 197):
    [pl.DataFrame({"x":[1,2,3]}).filter(x>1).select(["x"])]. *)
Definition test_snippet : string :=
  "pl.DataFrame({" ++ quoted "x" ++ ":[1,2,3]}).filter(x>1).select(["
    ++ quoted "x" ++ "])".

(** What [main] needs to get through lines 184-200: the grammar generated
    from the discovered API map derives [test_snippet] (the parser accepts
    no other text, so [parser.parse] raises when this fails). *)
Definition main_parses (set_iter : list string -> list string)
  (polars_module : node) : Prop :=
  derives set_iter (build_polars_api_map polars_module) test_snippet.

(** Second snippet of [test_valid_snippets] (test line 34):
    [pl.DataFrame({"x": [1,2,3]}).filter(pl.col("x") > 1)]. *)
Definition nested_call_snippet : string :=
  "pl.DataFrame({" ++ quoted "x" ++ ": [1,2,3]}).filter(pl.col("
    ++ quoted "x" ++ ") > 1)".

Definition missing_parentheses_snippet : string :=
  "pl.DataFrame{" ++ quoted "x" ++ ": [1,2,3]}".

(** [c] does not occur in [s]. *)
Fixpoint lacks (c : ascii) (s : string) : bool :=
  match s with
  | EmptyString => true
  | String d rest => negb (Ascii.eqb d c) && lacks c rest
  end.

(** One method call of a role as the grammar lexes it: the placeholder
    text when the role has no recognized method, otherwise a recognized
    method applied to an argument text without closing parenthesis. *)
Definition role_call (methods : list string) (placeholder : string)
  (call : string) : Prop :=
  (methods = [] /\ call = placeholder)
  \/ exists m args, In m methods /\ no_rparen args = true
                    /\ call = "." ++ m ++ "(" ++ args ++ ")".

Definition builder_call (api : api_map) : string -> Prop :=
  role_call (dataframe_methods api) "NO_DF_METHODS".

Definition lazy_call (api : api_map) : string -> Prop :=
  role_call (lazyframe_methods api) "NO_LF_METHODS".

(** The text of a method call and of a construction call followed by a
    chain of method calls, each given as method name and argument text. *)
Definition render_call (call : string * string) : string :=
  "." ++ fst call ++ "(" ++ snd call ++ ")".

Definition chain_text (args : string) (calls : list (string * string))
  : string :=
  "pl.DataFrame(" ++ args ++ ")"
    ++ String.concat EmptyString (map render_call calls).

(** A method name without opening parenthesis and an argument text
    without closing parenthesis. *)
Definition plain_call (call : string * string) : bool :=
  lacks "("%char (fst call) && no_rparen (snd call).

(** The shape shared by all method-call tokens: a dot or, for a
    placeholder, the letter N, followed by text whose only closing
    parenthesis, if any, is its last character. *)
Definition call_shaped (call : string) : Prop :=
  exists d tail,
    call = String d tail /\ (d = "."%char \/ d = "N"%char)
    /\ ((exists body, no_rparen body = true /\ tail = body ++ ")")
        \/ no_rparen tail = true).

(** What may follow a closing parenthesis: nothing, a dot or the letter N. *)
Definition call_boundary (rest : string) : Prop :=
  rest = EmptyString
  \/ exists d rest', rest = String d rest' /\ (d = "."%char \/ d = "N"%char).

(** A class with two methods, an attribute and a nested class. *)
Definition demo_class : node :=
  Node "DataFrame"
    [ ("select", Node "select" [] true
                   (Some (ExprAttribute [ExprName "pl"; ExprName "DataFrame"])));
      ("columns", Node "columns" [] false (Some (ExprOther "list[str]")));
      ("head", Node "head" [] true None);
      ("Config", Node "Config" [] false None) ]
    false None.

(** A member tree whose classes are not reachable by the wanted names. *)
Definition bare_module : node :=
  Node "polars" [ ("Series", Node "Series" [] false None) ] false None.

(** * Proofs *)

(** ** The member tree *)

Lemma node_induction (P : node -> Prop) :
  (forall nm ms f r, Forall P (Py.values ms) -> P (Node nm ms f r)) ->
  forall n, P n.
Proof.
  intros step. fix IH 1. intros [nm ms f r]. apply step.
  induction ms as [|[k child] ms IHms]; simpl; constructor.
  - apply IH.
  - exact IHms.
Qed.

Lemma find_object_by_name_unfold module target :
  find_object_by_name module target =
  if Py.endswith (name module) target then Some module
  else match find (fun member => Py.endswith (name member) target)
                  (Py.values (members module)) with
       | Some member => Some member
       | None => search_each target (Py.values (members module))
       end.
Proof.
  destruct module as [nm ms f r]; simpl.
  destruct (Py.endswith nm target); [reflexivity|].
  destruct (find _ _); [reflexivity|].
  induction ms as [|[k child] ms IHms]; simpl; [reflexivity|].
  destruct (find_object_by_name child target); [reflexivity|exact IHms].
Qed.

Lemma examination_order_unfold module :
  examination_order module =
  module :: (Py.values (members module)
             ++ flat_map examination_order (Py.values (members module)))%list.
Proof.
  destruct module as [nm ms f r]; simpl. do 2 f_equal.
  induction ms as [|[k child] ms IHms]; simpl; [reflexivity|].
  now rewrite IHms.
Qed.

Lemma height_child n child :
  In child (Py.values (members n)) -> height child < height n.
Proof.
  destruct n as [nm ms f r]. cbn [members height].
  induction ms as [|[k c] ms IHms]; cbn [Py.values map snd In]; [tauto|].
  intros [->|Hin].
  - apply Nat.lt_le_trans with (S (height child)); [lia|apply Nat.le_max_l].
  - eapply Nat.lt_le_trans; [apply IHms, Hin|apply Nat.le_max_r].
Qed.

Lemma find_app_first {A} (p : A -> bool) (xs ys : list A) :
  find p (xs ++ ys) =
  match find p xs with Some x => Some x | None => find p ys end.
Proof.
  induction xs as [|x xs IH]; simpl; [reflexivity|].
  destruct (p x); [reflexivity|exact IH].
Qed.

Lemma search_each_examined target children :
  Forall (fun child =>
            find_object_by_name child target =
            find (fun n => Py.endswith (name n) target)
                 (examination_order child)) children ->
  search_each target children =
  find (fun n => Py.endswith (name n) target)
       (flat_map examination_order children).
Proof.
  induction 1 as [|child children Hchild _ IH]; simpl; [reflexivity|].
  rewrite find_app_first, <- Hchild, IH. reflexivity.
Qed.

Lemma find_object_by_name_examined module target :
  find_object_by_name module target =
  find (fun n => Py.endswith (name n) target) (examination_order module).
Proof.
  induction module as [nm ms f r IH] using node_induction.
  rewrite find_object_by_name_unfold, examination_order_unfold.
  cbn [find name members].
  destruct (Py.endswith nm target); [reflexivity|].
  rewrite find_app_first.
  destruct (find _ (Py.values ms)); [reflexivity|].
  apply search_each_examined, IH.
Qed.

Lemma examined_in_tree module n :
  In n (examination_order module) <-> in_tree n module.
Proof.
  split.
  - revert n. induction module as [nm ms f r IH] using node_induction.
    intros n. rewrite examination_order_unfold. cbn [members In].
    intros [<-|Hin]; [constructor|].
    apply in_app_or in Hin. destruct Hin as [Hin|Hin].
    + apply in_tree_child with n; [exact Hin|constructor].
    + apply in_flat_map in Hin. destruct Hin as (child & Hchild & Hin).
      apply in_tree_child with child; [exact Hchild|].
      rewrite Forall_forall in IH. now apply IH.
  - induction 1 as [|t child Hchild _ IH].
    + rewrite examination_order_unfold. now left.
    + rewrite examination_order_unfold. right. apply in_or_app. right.
      apply in_flat_map. now exists child.
Qed.

Lemma find_object_by_name_fuel_enough module target :
  forall fuel, height module < fuel ->
  find_object_by_name_fuel fuel module target =
  Some (find_object_by_name module target).
Proof.
  induction module as [nm ms f r IH] using node_induction.
  intros [|fuel] Hfuel; [lia|].
  rewrite find_object_by_name_unfold. cbn [find_object_by_name_fuel name members].
  destruct (Py.endswith nm target); [reflexivity|].
  destruct (find _ (Py.values ms)); [reflexivity|].
  assert (Hheights : forall child, In child (Py.values ms) -> height child < fuel).
  { intros child Hin.
    pose proof (height_child (Node nm ms f r) child Hin). lia. }
  clear Hfuel. induction (Py.values ms) as [|child children IHc]; [reflexivity|].
  inversion IH as [|? ? Hchild Hrest]; subst.
  cbn [search_each]. rewrite Hchild by (apply Hheights; now left).
  destruct (find_object_by_name child target); [reflexivity|].
  apply IHc; [exact Hrest|]. intros c Hc. apply Hheights. now right.
Qed.

Lemma callees_loop_incl target children :
  incl (callees_loop target children) children.
Proof.
  induction children as [|child children IH]; simpl; [easy|].
  intros c [<-|Hin]; [now left|].
  destruct (find_object_by_name child target); [easy|]. right. now apply IH.
Qed.

(** ** Dictionaries *)

Lemma get_set {V} (d : Py.dict V) k v k' :
  Py.get (Py.set d k v) k' = if String.eqb k k' then Some v else Py.get d k'.
Proof.
  induction d as [|[k0 v0] d IH]; simpl.
  - reflexivity.
  - destruct (String.eqb_spec k0 k) as [->|Hne]; simpl.
    + destruct (String.eqb k k'); reflexivity.
    + rewrite IH. destruct (String.eqb_spec k0 k') as [->|Hne'].
      * destruct (String.eqb_spec k k'); [congruence|reflexivity].
      * reflexivity.
Qed.

Lemma find_none_iff {A} (p : A -> bool) (xs : list A) :
  find p xs = None <-> forall x, In x xs -> p x = false.
Proof.
  split; [apply find_none|].
  induction xs as [|x xs IH]; simpl; [reflexivity|].
  intros Hall. rewrite (Hall x) by now left. apply IH. auto.
Qed.

(** ** Claims about the reflector *)

(** C6: the search returns the first node whose name ends with the
    requested class name, the nodes being examined in the order: the tree
    itself, each immediate child, then the same search inside each child in
    turn; the nodes so examined are exactly the nodes of the tree, and no
    node is returned exactly when no node of the tree matches. *)
Theorem find_object_by_name_first_examined module target :
  let children := Py.values (members module) in
  examination_order module =
    module :: (children ++ flat_map examination_order children)%list
  /\ find_object_by_name module target =
     find (fun n => Py.endswith (name n) target) (examination_order module)
  /\ (forall n, In n (examination_order module) <-> in_tree n module)
  /\ (find_object_by_name module target = None <->
      forall n, in_tree n module -> Py.endswith (name n) target = false).
Proof.
  cbv zeta. split; [apply examination_order_unfold|].
  split; [apply find_object_by_name_examined|].
  split; [intros n; apply examined_in_tree|].
  rewrite find_object_by_name_examined, find_none_iff.
  split; intros Hnone n Hn; apply Hnone; now apply examined_in_tree.
Qed.

(** C10: on every member tree the recursive search returns: a recursion
    budget of one more than the height of the tree is enough for the
    budgeted search to produce the result, and every recursive call is made
    on an immediate child, which is strictly lower than the current node. *)
Theorem find_object_by_name_terminates module target :
  find_object_by_name_fuel (S (height module)) module target =
    Some (find_object_by_name module target)
  /\ forall callee, In callee (callees module target) ->
       In callee (Py.values (members module))
       /\ height callee < height module.
Proof.
  split; [apply find_object_by_name_fuel_enough; lia|].
  intros callee Hin.
  assert (Hchild : In callee (Py.values (members module))).
  { unfold callees in Hin.
    destruct (Py.endswith _ _); [easy|]. destruct (find _ _); [easy|].
    now apply callees_loop_incl in Hin. }
  split; [exact Hchild|now apply height_child].
Qed.

Lemma set_keys {V} (d : Py.dict V) k v :
  Py.keys (Py.set d k v) =
  if Py.mem k (Py.keys d) then Py.keys d else (Py.keys d ++ [k])%list.
Proof.
  unfold Py.mem, Py.keys.
  induction d as [|[k0 v0] d IH]; cbn [Py.set map fst existsb app orb].
  - reflexivity.
  - rewrite (String.eqb_sym k k0).
    destruct (String.eqb k0 k); cbn [map fst orb]; [reflexivity|].
    rewrite IH. now destruct (existsb _ _).
Qed.

Lemma mem_In x xs : Py.mem x xs = true <-> In x xs.
Proof.
  unfold Py.mem. rewrite existsb_exists. split.
  - intros (y & Hy & Heq). apply String.eqb_eq in Heq. now subst.
  - intros Hin. exists x. split; [exact Hin|apply String.eqb_refl].
Qed.

Lemma set_keys_NoDup {V} (d : Py.dict V) k v :
  NoDup (Py.keys d) -> NoDup (Py.keys (Py.set d k v)).
Proof.
  intros Hd. rewrite set_keys. destruct (Py.mem k (Py.keys d)) eqn:Hmem.
  - exact Hd.
  - apply NoDup_app; [exact Hd|repeat constructor; easy|].
    intros x Hx [<-|[]]. apply mem_In in Hx. congruence.
Qed.

Lemma get_None_keys {V} (d : Py.dict V) k :
  Py.get d k = None <-> ~ In k (Py.keys d).
Proof.
  induction d as [|[k0 v0] d IH]; cbn [Py.get Py.keys map fst In].
  - tauto.
  - destruct (String.eqb_spec k0 k) as [->|Hne].
    + split; [discriminate|tauto].
    + unfold Py.keys in IH. tauto.
Qed.

Section Collect.

Context {A V : Type} (lookup : string -> option A) (convert : A -> V).

Lemma found_get classes : forall (init : Py.dict A) k,
  Py.get (fold_left (fun found c => match lookup c with
                                    | Some obj => Py.set found c obj
                                    | None => found
                                    end) classes init) k =
  match (if Py.mem k classes then lookup k else None) with
  | Some obj => Some obj
  | None => Py.get init k
  end.
Proof.
  unfold Py.mem.
  induction classes as [|c classes IH]; intros init k;
    cbn [fold_left existsb]; [reflexivity|].
  rewrite IH. destruct (String.eqb_spec k c) as [->|Hne]; cbn [orb].
  - destruct (lookup c) as [obj|] eqn:Hc.
    + rewrite get_set, String.eqb_refl. now destruct (existsb _ _).
    + now destruct (existsb _ _).
  - destruct (lookup c) as [obj|]; [|reflexivity].
    rewrite get_set. destruct (String.eqb_spec c k); [congruence|].
    reflexivity.
Qed.

Lemma found_keys_NoDup classes : forall (init : Py.dict A),
  NoDup (Py.keys init) ->
  NoDup (Py.keys (fold_left (fun found c => match lookup c with
                                             | Some obj => Py.set found c obj
                                             | None => found
                                             end) classes init)).
Proof.
  induction classes as [|c classes IH]; intros init Hinit;
    cbn [fold_left]; [exact Hinit|].
  apply IH. destruct (lookup c); [now apply set_keys_NoDup|exact Hinit].
Qed.

Lemma converted_get (d : Py.dict A) : forall (init : Py.dict V) k,
  NoDup (Py.keys d) ->
  Py.get (fold_left (fun api '(c, obj) => Py.set api c (convert obj)) d init) k
  = match Py.get d k with
    | Some obj => Some (convert obj)
    | None => Py.get init k
    end.
Proof.
  induction d as [|[c obj] d IH]; intros init k Hd;
    cbn [fold_left Py.get]; [reflexivity|].
  cbn [Py.keys map fst] in Hd. inversion Hd as [|? ? Hc Hd']; subst.
  rewrite IH by exact Hd'. rewrite get_set.
  destruct (String.eqb_spec c k) as [->|Hne]; [|reflexivity].
  apply get_None_keys in Hc. now rewrite Hc.
Qed.

End Collect.

Lemma build_polars_api_map_get polars_module cls_name :
  Py.get (build_polars_api_map polars_module) cls_name =
  if Py.mem cls_name interesting_classes
  then option_map methods_dict (find_object_by_name polars_module cls_name)
  else None.
Proof.
  unfold build_polars_api_map, found_objects.
  rewrite converted_get by (apply found_keys_NoDup; constructor).
  rewrite found_get.
  destruct (Py.mem cls_name interesting_classes); [|reflexivity].
  now destruct (find_object_by_name polars_module cls_name).
Qed.

(** C7: a requested class name for which the tree search finds no node is
    left out of the discovery result: looking it up yields nothing and it
    is not among the keys.  The construction is a total function: there is
    no failing path. *)
Theorem unresolved_class_is_omitted polars_module cls_name :
  find_object_by_name polars_module cls_name = None ->
  Py.get (build_polars_api_map polars_module) cls_name = None
  /\ ~ In cls_name (Py.keys (build_polars_api_map polars_module)).
Proof.
  intros Hnone.
  assert (Hget : Py.get (build_polars_api_map polars_module) cls_name = None).
  { rewrite build_polars_api_map_get, Hnone. now destruct (Py.mem _ _). }
  split; [exact Hget|now apply get_None_keys].
Qed.

(** ** The return-type normaliser *)

Lemma expr_induction (P : expr -> Prop) :
  (forall n, P (ExprName n)) ->
  (forall values, Forall P values -> P (ExprAttribute values)) ->
  (forall r, P (ExprOther r)) ->
  forall e, P e.
Proof.
  intros Hname Hattr Hother. fix IH 1. intros [n|values|r].
  - apply Hname.
  - apply Hattr. induction values as [|v values IHv]; constructor.
    + apply IH.
    + exact IHv.
  - apply Hother.
Qed.

Lemma fold_flatten_step values : forall parts,
  Forall (fun v => forall parts,
            flatten_step parts v = (parts ++ Reference.contributes v)%list)
         values ->
  fold_left flatten_step values parts =
  (parts ++ Reference.flatten values)%list.
Proof.
  unfold Reference.flatten.
  induction values as [|v values IH]; intros parts Hall; cbn [fold_left map concat].
  - now rewrite app_nil_r.
  - inversion Hall as [|? ? Hv Hrest]; subst.
    rewrite IH by exact Hrest. rewrite Hv. now rewrite <- app_assoc.
Qed.

Lemma flatten_step_contributes val : forall parts,
  flatten_step parts val = (parts ++ Reference.contributes val)%list.
Proof.
  induction val as [n|values IH|r] using expr_induction; intros parts;
    cbn [flatten_step Reference.contributes]; try reflexivity.
  now rewrite fold_flatten_step.
Qed.

Lemma flatten_refines values :
  _flatten_expr_attribute values = Reference.flatten values.
Proof.
  unfold _flatten_expr_attribute. rewrite fold_flatten_step; [reflexivity|].
  apply Forall_forall. intros v _. apply flatten_step_contributes.
Qed.

Lemma flatten_app vs1 vs2 :
  _flatten_expr_attribute (vs1 ++ vs2) =
  (_flatten_expr_attribute vs1 ++ _flatten_expr_attribute vs2)%list.
Proof.
  rewrite !flatten_refines. unfold Reference.flatten.
  now rewrite map_app, concat_app.
Qed.

Lemma flatten_cons v values :
  _flatten_expr_attribute (v :: values) =
  (Reference.contributes v ++ _flatten_expr_attribute values)%list.
Proof. rewrite !flatten_refines. reflexivity. Qed.

Lemma flatten_names names :
  _flatten_expr_attribute (map ExprName names) = names.
Proof.
  induction names as [|n names IH]; [reflexivity|].
  cbn [map]. rewrite flatten_cons, IH. reflexivity.
Qed.

Lemma flatten_nested inner :
  _flatten_expr_attribute [ExprAttribute inner] = _flatten_expr_attribute inner.
Proof.
  rewrite flatten_cons. cbn [Reference.contributes].
  rewrite (flatten_refines inner). unfold _flatten_expr_attribute.
  cbn. now rewrite app_nil_r.
Qed.

Lemma plain_element_contributes v :
  plain_element v = true ->
  Reference.contributes v <> []
  /\ forall s, In s (Reference.contributes v) <->
               match v with
               | ExprName n => s = n
               | ExprAttribute inner => name_in_chain s inner
               | ExprOther _ => False
               end.
Proof.
  induction v as [n|values IH|r] using expr_induction;
    cbn [plain_element Reference.contributes]; intros Hplain.
  - split; [discriminate|]. intros s. cbn. split; [intros [<-|[]]|intros ->]; auto.
  - destruct values as [|v0 values]; [discriminate|].
    assert (Hall : Forall (fun v => plain_element v = true) (v0 :: values))
      by (apply Forall_forall; now apply forallb_forall).
    split.
    + inversion Hall as [|? ? Hv0 _]; subst.
      inversion IH as [|? ? IH0 _]; subst.
      destruct (IH0 Hv0) as [Hne _]. cbn [map concat].
      destruct (Reference.contributes v0); [congruence|discriminate].
    + intros s. rewrite in_concat. split.
      * intros (frags & Hfrags & Hs). apply in_map_iff in Hfrags.
        destruct Hfrags as (v & <- & Hv).
        rewrite Forall_forall in IH, Hall.
        destruct (IH v Hv (Hall v Hv)) as [_ Hiff]. apply Hiff in Hs.
        destruct v as [n|inner|r]; [subst s|..].
        -- now apply name_here.
        -- now apply name_nested with inner.
        -- contradiction.
      * rewrite Forall_forall in IH, Hall.
        intros Hin. inversion Hin as [? Hhere|? inner Hnested Hinner]; subst.
        -- exists [s]. split; [|now left].
           apply in_map_iff. exists (ExprName s). now split.
        -- exists (Reference.contributes (ExprAttribute inner)). split.
           ++ apply in_map_iff. now exists (ExprAttribute inner).
           ++ apply (IH _ Hnested (Hall _ Hnested)). exact Hinner.
  - discriminate.
Qed.

(** ** Claims about the normaliser *)

(** C4: return-type normalisation is the reference definition: absent for
    an absent annotation, the name for a plain name, the dot-joined
    depth-first left-to-right flattening for an attribute chain, the opaque
    rendering for anything else; and it yields a string for every
    annotation that is present, whatever its shape. *)
Theorem normalize_returns_is_reference :
  (forall values, _flatten_expr_attribute values = Reference.flatten values)
  /\ (forall ann, normalize_returns ann = Reference.normalize ann)
  /\ (forall e, exists s, normalize_returns (Some e) = Some s).
Proof.
  split; [apply flatten_refines|]. split.
  - intros [[n|values|r]|]; cbn [normalize_returns Reference.normalize];
      try reflexivity.
    now rewrite flatten_refines.
  - intros [n|values|r]; cbn [normalize_returns]; eauto.
Qed.

(** C5, the claim as written, fails: an attribute chain with no values
    flattens to the empty sequence, and an element that is neither a name
    nor a chain contributes its rendering, which is no name of the chain. *)
Lemma flatten_not_always_names :
  _flatten_expr_attribute [] = []
  /\ _flatten_expr_attribute [ExprOther "f()"; ExprName "x"] = ["f()"; "x"]
  /\ ~ name_in_chain "f()" [ExprOther "f()"; ExprName "x"].
Proof.
  split; [reflexivity|]. split; [reflexivity|].
  intros Hin. inversion Hin as [? Hhere|? inner Hnested _]; subst.
  - destruct Hhere as [H|[H|[]]]; discriminate.
  - destruct Hnested as [H|[H|[]]]; discriminate.
Qed.

(** C5, amended: a chain whose value lists are, at every nesting level,
    non-empty and made of plain names and chains of the same kind flattens
    to a non-empty sequence holding exactly the plain names of the chain;
    the order is that of the values, outermost first: a chain of names
    flattens to these names as listed, a nested chain stands for its own
    flattening, and flattening distributes over concatenation. *)
Theorem plain_chain_flattens_to_its_names values :
  plain_chain values = true ->
  _flatten_expr_attribute values <> []
  /\ (forall s, In s (_flatten_expr_attribute values) <-> name_in_chain s values)
  /\ (forall names, _flatten_expr_attribute (map ExprName names) = names)
  /\ (forall inner,
        _flatten_expr_attribute [ExprAttribute inner] =
        _flatten_expr_attribute inner)
  /\ (forall vs1 vs2,
        _flatten_expr_attribute (vs1 ++ vs2) =
        (_flatten_expr_attribute vs1 ++ _flatten_expr_attribute vs2)%list).
Proof.
  intros Hplain.
  destruct (plain_element_contributes (ExprAttribute values) Hplain)
    as [Hne Hiff].
  cbn [Reference.contributes] in Hne, Hiff.
  rewrite flatten_refines. unfold Reference.flatten.
  repeat split; try apply Hiff; auto using flatten_names, flatten_nested, flatten_app.
Qed.

(** ** Lines of a text *)

Lemma split_lines_nonempty text : split_lines text <> [].
Proof.
  destruct text as [|c rest]; cbn [split_lines]; [discriminate|].
  destruct (Ascii.eqb _ _); [discriminate|].
  destruct (split_lines rest); discriminate.
Qed.

Lemma split_lines_app a b :
  split_lines (a ++ nl ++ b) = (split_lines a ++ split_lines b)%list.
Proof.
  induction a as [|c a IH].
  - reflexivity.
  - change (String c a ++ nl ++ b) with (String c (a ++ nl ++ b)).
    cbn [split_lines]. rewrite IH.
    destruct (Ascii.eqb c (ascii_of_nat 10)); [reflexivity|].
    pose proof (split_lines_nonempty a) as Hne.
    destruct (split_lines a); [congruence|reflexivity].
Qed.

Lemma split_lines_single s : no_newline s = true -> split_lines s = [s].
Proof.
  induction s as [|c s IH]; cbn [no_newline split_lines]; [reflexivity|].
  intros H. apply andb_true_iff in H. destruct H as [Hc Hs].
  apply negb_true_iff in Hc. rewrite Hc, (IH Hs). reflexivity.
Qed.

Lemma split_lines_join lines :
  Forall (fun l => no_newline l = true) lines ->
  split_lines (Py.join nl lines) =
  match lines with [] => [EmptyString] | _ :: _ => lines end.
Proof.
  unfold Py.join.
  induction 1 as [|l lines Hl Hrest IH]; [reflexivity|].
  destruct lines as [|l' lines].
  - now apply split_lines_single.
  - change (String.concat nl (l :: l' :: lines))
      with (l ++ nl ++ String.concat nl (l' :: lines)).
    rewrite split_lines_app, IH, split_lines_single by exact Hl. reflexivity.
Qed.

Lemma no_newline_app a b :
  no_newline (a ++ b) = no_newline a && no_newline b.
Proof.
  induction a as [|c a IH]; cbn [append no_newline]; [reflexivity|].
  rewrite IH. now rewrite andb_assoc.
Qed.

Lemma no_newline_join sep parts :
  no_newline sep = true ->
  Forall (fun p => no_newline p = true) parts ->
  no_newline (Py.join sep parts) = true.
Proof.
  intros Hsep. unfold Py.join.
  induction 1 as [|p parts Hp Hrest IH]; [reflexivity|].
  destruct parts as [|p' parts]; [exact Hp|].
  change (String.concat sep (p :: p' :: parts))
    with (p ++ sep ++ String.concat sep (p' :: parts)).
  now rewrite !no_newline_app, Hp, Hsep, IH.
Qed.

(** ** The allow-lists *)

Lemma filter_mem_In m allow keys :
  In m (filter (fun k => Py.mem k allow) keys) <-> In m keys /\ In m allow.
Proof. rewrite filter_In, mem_In. reflexivity. Qed.

Lemma known_df_allowed m : In m known_df_methods -> In m allowed_methods.
Proof. cbn. intuition. Qed.

Lemma known_lf_allowed m : In m known_lf_methods -> In m allowed_methods.
Proof. cbn. intuition. Qed.

Lemma dataframe_methods_allowed api m :
  In m (dataframe_methods api) -> In m allowed_methods.
Proof.
  unfold dataframe_methods. rewrite filter_mem_In.
  intros [_ H]. now apply known_df_allowed.
Qed.

Lemma lazyframe_methods_allowed api m :
  In m (lazyframe_methods api) -> In m allowed_methods.
Proof.
  unfold lazyframe_methods. rewrite filter_mem_In.
  intros [_ H]. now apply known_lf_allowed.
Qed.

(** Case analysis on a member of a concrete list of names. *)
Ltac each_member H :=
  repeat (destruct H as [H|H]; [subst|]); try contradiction.

Lemma method_rule_no_newline m :
  In m allowed_methods -> no_newline (method_rule m) = true.
Proof. intros H. cbv [allowed_methods] in H. each_member H; reflexivity. Qed.

Lemma upper_no_newline m :
  In m allowed_methods -> no_newline (Py.upper m) = true.
Proof. intros H. cbv [allowed_methods] in H. each_member H; reflexivity. Qed.

Lemma df_call_rule_no_newline api : no_newline (df_call_rule api) = true.
Proof.
  unfold df_call_rule. destruct (df_method_call_tokens api) eqn:Htok;
    [reflexivity|]. rewrite <- Htok.
  rewrite no_newline_app. apply andb_true_iff. split; [reflexivity|].
  apply no_newline_join; [reflexivity|].
  unfold df_method_call_tokens. apply Forall_forall. intros t Ht.
  apply in_map_iff in Ht. destruct Ht as (m & <- & Hm).
  eapply upper_no_newline, dataframe_methods_allowed, Hm.
Qed.

Lemma lf_call_rule_no_newline api : no_newline (lf_call_rule api) = true.
Proof.
  unfold lf_call_rule. destruct (lf_method_call_tokens api) eqn:Htok;
    [reflexivity|]. rewrite <- Htok.
  rewrite no_newline_app. apply andb_true_iff. split; [reflexivity|].
  apply no_newline_join; [reflexivity|].
  unfold lf_method_call_tokens. apply Forall_forall. intros t Ht.
  apply in_map_iff in Ht. destruct Ht as (m & <- & Hm).
  eapply upper_no_newline, lazyframe_methods_allowed, Hm.
Qed.

Lemma grammar_prelude_split : split_lines grammar_prelude = grammar_prelude_lines.
Proof. vm_compute. reflexivity. Qed.

Lemma grammar_mid_split : split_lines grammar_mid = grammar_mid_lines.
Proof. vm_compute. reflexivity. Qed.

(** ** The synthesised text, line by line *)

Lemma method_rule_renders m :
  method_rule m = Lark.render_terminal (method_terminal m).
Proof. reflexivity. Qed.

Lemma df_call_rule_renders api :
  df_call_rule api = Lark.render_terminal (df_call_terminal api).
Proof.
  unfold df_call_rule, df_call_terminal.
  destruct (df_method_call_tokens api); reflexivity.
Qed.

Lemma lf_call_rule_renders api :
  lf_call_rule api = Lark.render_terminal (lf_call_terminal api).
Proof.
  unfold lf_call_rule, lf_call_terminal.
  destruct (lf_method_call_tokens api); reflexivity.
Qed.

Lemma method_rule_is_terminal_line m :
  In m allowed_methods ->
  defines_terminal (method_rule m) = true /\ lstrip (method_rule m) = method_rule m.
Proof.
  intros H. cbv [allowed_methods] in H. each_member H; split; reflexivity.
Qed.

Lemma df_call_rule_is_terminal_line api :
  defines_terminal (df_call_rule api) = true
  /\ lstrip (df_call_rule api) = df_call_rule api.
Proof.
  unfold df_call_rule. destruct (df_method_call_tokens api); split; reflexivity.
Qed.

Lemma lf_call_rule_is_terminal_line api :
  defines_terminal (lf_call_rule api) = true
  /\ lstrip (lf_call_rule api) = lf_call_rule api.
Proof.
  unfold lf_call_rule. destruct (lf_method_call_tokens api); split; reflexivity.
Qed.

Lemma filter_all {A} (p : A -> bool) xs :
  Forall (fun x => p x = true) xs -> filter p xs = xs.
Proof.
  induction 1 as [|x xs Hx _ IH]; cbn [filter]; [reflexivity|].
  now rewrite Hx, IH.
Qed.

Lemma filter_none {A} (p : A -> bool) xs :
  Forall (fun x => p x = false) xs -> filter p xs = [].
Proof.
  induction 1 as [|x xs Hx _ IH]; cbn [filter]; [reflexivity|].
  now rewrite Hx, IH.
Qed.

Lemma map_id_on {A} (f : A -> A) xs :
  Forall (fun x => f x = x) xs -> map f xs = xs.
Proof.
  induction 1 as [|x xs Hx _ IH]; cbn [map]; [reflexivity|].
  now rewrite Hx, IH.
Qed.

Section SynthesizerProofs.

Variable set_iter : list string -> list string.
Hypothesis set_iter_NoDup : forall xs, NoDup (set_iter xs).
Hypothesis set_iter_In : forall xs x, In x (set_iter xs) <-> In x xs.

Lemma recognized_iff api m :
  In m (recognized_methods set_iter api) <->
  (In m (Py.keys (df_methods api)) /\ In m known_df_methods)
  \/ (In m (Py.keys (lf_methods api)) /\ In m known_lf_methods).
Proof.
  unfold recognized_methods. rewrite set_iter_In, in_app_iff.
  unfold dataframe_methods, lazyframe_methods.
  now rewrite !filter_mem_In.
Qed.

Lemma recognized_allowed api m :
  In m (recognized_methods set_iter api) -> In m allowed_methods.
Proof.
  unfold recognized_methods. rewrite set_iter_In, in_app_iff.
  intros [H|H]; eauto using dataframe_methods_allowed, lazyframe_methods_allowed.
Qed.

Lemma method_rules_allowed api :
  Forall (fun r => exists m, In m allowed_methods /\ r = method_rule m)
         (method_rules set_iter api).
Proof.
  apply Forall_forall. intros r Hr. apply in_map_iff in Hr.
  destruct Hr as (m & <- & Hm). exists m. split; [|reflexivity].
  eapply recognized_allowed, Hm.
Qed.

(** The lines of the generated text: the prelude, the method rules (one
    empty line when there is none), the mid-section and the two
    alternation rules. *)
Lemma generate_lines api :
  split_lines (generate_lark_grammar set_iter api) =
  (grammar_prelude_lines
   ++ match method_rules set_iter api with
      | [] => [EmptyString]
      | _ :: _ => method_rules set_iter api
      end
   ++ grammar_mid_lines
   ++ [df_call_rule api; lf_call_rule api])%list.
Proof.
  change (generate_lark_grammar set_iter api)
    with (grammar_prelude ++ nl ++ Py.join nl (method_rules set_iter api)
          ++ nl ++ grammar_mid ++ nl ++ df_call_rule api ++ nl
          ++ lf_call_rule api).
  rewrite !split_lines_app, grammar_prelude_split, grammar_mid_split.
  rewrite split_lines_join.
  - rewrite (split_lines_single (df_call_rule api))
      by apply df_call_rule_no_newline.
    rewrite (split_lines_single (lf_call_rule api))
      by apply lf_call_rule_no_newline.
    now destruct (method_rules set_iter api).
  - eapply Forall_impl; [|apply method_rules_allowed].
    intros r (m & Hm & ->). now apply method_rule_no_newline.
Qed.

(** Reading the terminal definitions back from the text gives the
    terminal table, entry by entry. *)
Lemma terminal_lines_generate api :
  terminal_lines (generate_lark_grammar set_iter api) =
  map Lark.render_terminal (terminals set_iter api).
Proof.
  unfold terminal_lines, terminals. rewrite generate_lines.
  rewrite !filter_app, !map_app, !map_map.
  replace (filter defines_terminal grammar_mid_lines) with (@nil string)
    by (vm_compute; reflexivity).
  destruct (df_call_rule_is_terminal_line api) as [Hd1 Hd2].
  destruct (lf_call_rule_is_terminal_line api) as [Hl1 Hl2].
  cbn [map app filter]. rewrite Hd1, Hl1. cbn [map]. rewrite Hd2, Hl2.
  rewrite <- df_call_rule_renders, <- lf_call_rule_renders.
  replace (map lstrip (filter defines_terminal grammar_prelude_lines))
    with (map Lark.render_terminal (firstn 2 (terminals set_iter api)))
    by (vm_compute; reflexivity).
  cbn [terminals firstn app map]. do 2 f_equal.
  apply (f_equal (fun rules => (rules ++ _)%list)).
  assert (Hrules : Forall (fun r => defines_terminal r = true
                                    /\ lstrip r = r)
                          (method_rules set_iter api)).
  { eapply Forall_impl; [|apply method_rules_allowed].
    intros r (m & Hm & ->). now apply method_rule_is_terminal_line. }
  fold (method_rules set_iter api) in *.
  destruct (method_rules set_iter api) as [|r rs] eqn:Hr.
  - unfold method_rules in Hr. apply map_eq_nil in Hr. now rewrite Hr.
  - rewrite filter_all
      by (eapply Forall_impl; [|exact Hrules]; now intros ? []).
    rewrite map_id_on
      by (eapply Forall_impl; [|exact Hrules]; now intros ? []).
    rewrite <- Hr. unfold method_rules. apply map_ext. reflexivity.
Qed.

End SynthesizerProofs.

(** ** Which line defines which terminal *)

Lemma defines_method_rule m m' :
  In m allowed_methods -> In m' allowed_methods ->
  defines (Py.upper m) (method_rule m') = String.eqb m m'.
Proof.
  intros H H'. cbv [allowed_methods] in H, H'.
  each_member H; each_member H'; reflexivity.
Qed.

Lemma templates_define_no_method m :
  In m allowed_methods ->
  filter (defines (Py.upper m)) grammar_prelude_lines = []
  /\ filter (defines (Py.upper m)) grammar_mid_lines = []
  /\ defines (Py.upper m) EmptyString = false.
Proof.
  intros H. cbv [allowed_methods] in H.
  each_member H; repeat split; vm_compute; reflexivity.
Qed.

Lemma call_rules_define_no_method api m :
  In m allowed_methods ->
  defines (Py.upper m) (df_call_rule api) = false
  /\ defines (Py.upper m) (lf_call_rule api) = false.
Proof.
  intros H. cbv [allowed_methods] in H. unfold df_call_rule, lf_call_rule.
  destruct (df_method_call_tokens api), (lf_method_call_tokens api);
    each_member H; split; reflexivity.
Qed.

Lemma method_rule_defines_no_call_rule m :
  In m allowed_methods ->
  defines "DF_METHOD_CALL" (method_rule m) = false
  /\ defines "LF_METHOD_CALL" (method_rule m) = false.
Proof.
  intros H. cbv [allowed_methods] in H. each_member H; split; reflexivity.
Qed.

Lemma call_rules_define_themselves api :
  defines "DF_METHOD_CALL" (df_call_rule api) = true
  /\ defines "DF_METHOD_CALL" (lf_call_rule api) = false
  /\ defines "LF_METHOD_CALL" (df_call_rule api) = false
  /\ defines "LF_METHOD_CALL" (lf_call_rule api) = true.
Proof.
  unfold df_call_rule, lf_call_rule.
  destruct (df_method_call_tokens api), (lf_method_call_tokens api);
    repeat split; reflexivity.
Qed.

Lemma filter_eqb_NoDup m xs :
  NoDup xs -> In m xs -> filter (String.eqb m) xs = [m].
Proof.
  induction 1 as [|x xs Hx Hxs IH]; cbn [In filter]; [tauto|].
  intros [->|Hin].
  - rewrite String.eqb_refl. f_equal. apply filter_none.
    apply Forall_forall. intros y Hy.
    destruct (String.eqb_spec m y); [congruence|reflexivity].
  - destruct (String.eqb_spec m x) as [->|_]; [contradiction|]. now apply IH.
Qed.

Lemma filter_map_ext_in {A B} (p : B -> bool) (q : A -> bool) (f : A -> B) xs :
  (forall x, In x xs -> p (f x) = q x) ->
  filter p (map f xs) = map f (filter q xs).
Proof.
  induction xs as [|x xs IH]; intros Hpq; cbn [map filter]; [reflexivity|].
  rewrite (Hpq x) by now left.
  rewrite IH by (intros y Hy; apply Hpq; now right).
  now destruct (q x).
Qed.

Section Definitions.

Variable set_iter : list string -> list string.
Hypothesis set_iter_NoDup : forall xs, NoDup (set_iter xs).
Hypothesis set_iter_In : forall xs x, In x (set_iter xs) <-> In x xs.

(** A recognized method is defined by one line of the text: its rule. *)
Lemma definitions_of_recognized api m :
  In m (recognized_methods set_iter api) ->
  definitions_of (Py.upper m) (generate_lark_grammar set_iter api) =
  [method_rule m].
Proof.
  intros Hm.
  pose proof (recognized_allowed set_iter set_iter_In api m Hm) as Hallowed.
  unfold definitions_of. rewrite (generate_lines set_iter set_iter_In).
  rewrite !filter_app.
  destruct (templates_define_no_method m Hallowed) as (-> & -> & Hempty).
  destruct (call_rules_define_no_method api m Hallowed) as [Hdf Hlf].
  cbn [filter app]. rewrite Hdf, Hlf, app_nil_r.
  assert (Hrules : filter (defines (Py.upper m)) (method_rules set_iter api)
                   = [method_rule m]).
  { unfold method_rules.
    rewrite (filter_map_ext_in _ (String.eqb m)).
    - rewrite filter_eqb_NoDup; [reflexivity|apply set_iter_NoDup|exact Hm].
    - intros m' Hm'. apply defines_method_rule; [exact Hallowed|].
      eapply recognized_allowed; eauto. }
  destruct (method_rules set_iter api); [discriminate|exact Hrules].
Qed.

(** Each alternation rule is defined by one line: the last two. *)
Lemma definitions_of_call_rules api :
  definitions_of "DF_METHOD_CALL" (generate_lark_grammar set_iter api) =
    [df_call_rule api]
  /\ definitions_of "LF_METHOD_CALL" (generate_lark_grammar set_iter api) =
    [lf_call_rule api].
Proof.
  assert (Hrules : forall t, t = "DF_METHOD_CALL" \/ t = "LF_METHOD_CALL" ->
            filter (defines t)
                   match method_rules set_iter api with
                   | [] => [EmptyString]
                   | _ :: _ => method_rules set_iter api
                   end = []).
  { intros t Ht. apply filter_none.
    pose proof (method_rules_allowed set_iter set_iter_In api) as Hall.
    destruct (method_rules set_iter api) as [|r rs].
    - constructor; [|constructor]. destruct Ht as [->| ->]; reflexivity.
    - eapply Forall_impl; [|exact Hall].
      intros r' (m & Hm & ->).
      destruct (method_rule_defines_no_call_rule m Hm).
      now destruct Ht as [->| ->]. }
  destruct (call_rules_define_themselves api) as (H1 & H2 & H3 & H4).
  unfold definitions_of. rewrite (generate_lines set_iter set_iter_In).
  rewrite !filter_app, !Hrules by auto.
  replace (filter (defines "DF_METHOD_CALL") grammar_prelude_lines)
    with (@nil string) by (vm_compute; reflexivity).
  replace (filter (defines "DF_METHOD_CALL") grammar_mid_lines)
    with (@nil string) by (vm_compute; reflexivity).
  replace (filter (defines "LF_METHOD_CALL") grammar_prelude_lines)
    with (@nil string) by (vm_compute; reflexivity).
  replace (filter (defines "LF_METHOD_CALL") grammar_mid_lines)
    with (@nil string) by (vm_compute; reflexivity).
  cbn [filter app]. rewrite H1, H2, H3, H4. split; reflexivity.
Qed.

End Definitions.

(** ** What the terminals match *)

Lemma append_nil_r s : s ++ EmptyString = s.
Proof. induction s as [|c s IH]; cbn; [reflexivity|now rewrite IH]. Qed.

Lemma append_assoc a b c : (a ++ b) ++ c = a ++ b ++ c.
Proof. induction a as [|x a IH]; cbn; [reflexivity|now rewrite IH]. Qed.

Lemma concat_empty_cons p ps :
  String.concat EmptyString (p :: ps) = p ++ String.concat EmptyString ps.
Proof.
  destruct ps as [|p' ps]; cbn [String.concat].
  - now rewrite append_nil_r.
  - reflexivity.
Qed.

Lemma no_rparen_app a b : no_rparen (a ++ b) = no_rparen a && no_rparen b.
Proof.
  induction a as [|c a IH]; cbn [append no_rparen]; [reflexivity|].
  rewrite IH. now rewrite andb_assoc.
Qed.

Lemma matches_literally a s : Lark.matches (Lark.literally a) s <-> s = a.
Proof.
  revert s. induction a as [|c a IH]; intros s; cbn [Lark.literally Lark.matches].
  - reflexivity.
  - split.
    + intros (s1 & s2 & -> & -> & H2). apply IH in H2. now subst.
    + intros ->. exists (String c EmptyString), a.
      repeat split. now apply IH.
Qed.

Lemma matches_no_rparen_run s :
  Lark.matches no_rparen_run s <-> no_rparen s = true.
Proof.
  unfold no_rparen_run. cbn [Lark.matches]. split.
  - intros (pieces & -> & Hall).
    induction Hall as [|p pieces (d & Hd & ->) _ IH]; [reflexivity|].
    rewrite concat_empty_cons. cbn [append no_rparen].
    rewrite IH, andb_true_r. apply negb_true_iff.
    now apply Ascii.eqb_neq.
  - induction s as [|c s IH]; cbn [no_rparen]; intros H.
    + exists []. now split.
    + apply andb_true_iff in H. destruct H as [Hc Hs].
      destruct (IH Hs) as (pieces & -> & Hall).
      exists (String c EmptyString :: pieces). split.
      * now rewrite concat_empty_cons.
      * constructor; [|exact Hall]. exists c. split; [|reflexivity].
        apply Ascii.eqb_neq. now apply negb_true_iff.
Qed.

Lemma pattern_matches_nil s : Lark.pattern_matches [] s <-> s = EmptyString.
Proof. reflexivity. Qed.

Lemma pattern_matches_cons i items s :
  Lark.pattern_matches (i :: items) s <->
  exists s1 s2, s = s1 ++ s2 /\ Lark.matches (Lark.item_regex i) s1
                /\ Lark.pattern_matches items s2.
Proof. reflexivity. Qed.

(** A call terminal: a literal head, an opening parenthesis, a run of
    characters other than the closing parenthesis, a closing parenthesis. *)
Lemma call_pattern_matches head s :
  Lark.pattern_matches
    [Lark.Lit head; Lark.Lit "("; Lark.Re no_rparen_run; Lark.Lit ")"] s <->
  exists args, no_rparen args = true /\ s = head ++ "(" ++ args ++ ")".
Proof.
  rewrite pattern_matches_cons. split.
  - intros (s1 & s2 & -> & H1 & H2).
    apply matches_literally in H1. subst s1.
    apply pattern_matches_cons in H2. destruct H2 as (s3 & s4 & -> & H3 & H4).
    apply matches_literally in H3. subst s3.
    apply pattern_matches_cons in H4. destruct H4 as (args & s6 & -> & H5 & H6).
    apply matches_no_rparen_run in H5.
    apply pattern_matches_cons in H6. destruct H6 as (s7 & s8 & -> & H7 & H8).
    apply matches_literally in H7.
    pose proof (proj1 (pattern_matches_nil _) H8). subst.
    exists args. split; [exact H5|reflexivity].
  - intros (args & Hargs & ->).
    exists head, ("(" ++ args ++ ")"). split; [reflexivity|].
    split; [now apply matches_literally|].
    exists "(", (args ++ ")"). split; [reflexivity|].
    split; [now apply matches_literally|].
    exists args, ")". split; [reflexivity|].
    split; [now apply matches_no_rparen_run|].
    exists ")", EmptyString. split; [reflexivity|].
    split; [now apply matches_literally|reflexivity].
Qed.

Lemma method_pattern_matches m s :
  Lark.pattern_matches (method_pattern m) s <->
  exists args, no_rparen args = true /\ s = "." ++ m ++ "(" ++ args ++ ")".
Proof.
  unfold method_pattern. rewrite call_pattern_matches.
  split; intros (args & Hargs & ->); exists args; (split; [exact Hargs|]);
    cbn [append]; reflexivity.
Qed.

Lemma placeholder_pattern_matches text s :
  Lark.pattern_matches [Lark.Re (Lark.literally text)] s <-> s = text.
Proof.
  rewrite pattern_matches_cons. split.
  - intros (s1 & s2 & -> & H1 & H2). cbn [Lark.item_regex] in H1.
    apply matches_literally in H1.
    pose proof (proj1 (pattern_matches_nil _) H2). subst. apply append_nil_r.
  - intros ->. exists text, EmptyString. split; [now rewrite append_nil_r|].
    split; [now apply matches_literally|reflexivity].
Qed.

Lemma lazy_call_pattern_matches s :
  Lark.pattern_matches [Lark.Lit ".lazy"; Lark.Lit "("; Lark.Lit ")"] s <->
  s = ".lazy()".
Proof.
  rewrite pattern_matches_cons. split.
  - intros (s1 & s2 & -> & H1 & H2).
    apply matches_literally in H1. subst s1.
    apply pattern_matches_cons in H2. destruct H2 as (s3 & s4 & -> & H3 & H4).
    apply matches_literally in H3. subst s3.
    apply pattern_matches_cons in H4. destruct H4 as (s5 & s6 & -> & H5 & H6).
    apply matches_literally in H5.
    pose proof (proj1 (pattern_matches_nil _) H6). now subst.
  - intros ->. exists ".lazy", "()". split; [reflexivity|].
    split; [now apply matches_literally|].
    exists "(", ")". split; [reflexivity|].
    split; [now apply matches_literally|].
    exists ")", EmptyString. split; [reflexivity|].
    split; [now apply matches_literally|reflexivity].
Qed.

(** ** The terminal table *)

Lemma upper_allowed_not_fixed m :
  In m allowed_methods -> ~ In (Py.upper m) fixed_terminals.
Proof.
  intros H. cbv [allowed_methods] in H.
  each_member H; cbv; intuition discriminate.
Qed.

Lemma upper_allowed_inj m m' :
  In m allowed_methods -> In m' allowed_methods ->
  Py.upper m = Py.upper m' -> m = m'.
Proof.
  intros H H'. cbv [allowed_methods] in H, H'.
  each_member H; each_member H'; intros Heq;
    first [reflexivity | cbv in Heq; discriminate Heq].
Qed.

Section Table.

Variable set_iter : list string -> list string.
Hypothesis set_iter_In : forall xs x, In x (set_iter xs) <-> In x xs.

Lemma terminals_In api entry :
  In entry (terminals set_iter api) <->
  entry = dataframe_call_terminal \/ entry = lazyframe_call_terminal
  \/ (exists m, In m (recognized_methods set_iter api)
                /\ entry = method_terminal m)
  \/ entry = df_call_terminal api \/ entry = lf_call_terminal api.
Proof.
  unfold terminals. rewrite !in_app_iff, in_map_iff. cbn [In].
  split.
  - intros [[H|[H|[]]]|[(m & H & Hm)|[H|[H|[]]]]]; subst; eauto 10.
  - intros [H|[H|[(m & Hm & H)|[H|H]]]]; subst; eauto 10.
Qed.

Lemma lookup_fixed api t d :
  In t fixed_terminals ->
  In (t, d) (terminals set_iter api) ->
  In (t, d) [dataframe_call_terminal; lazyframe_call_terminal;
             df_call_terminal api; lf_call_terminal api].
Proof.
  intros Ht Hin. apply terminals_In in Hin.
  destruct Hin as [H|[H|[(m & Hm & H)|[H|H]]]];
    try (rewrite H; cbn; tauto).
  exfalso. injection H as Hname _.
  apply (upper_allowed_not_fixed m).
  - eapply recognized_allowed; eauto.
  - now rewrite <- Hname.
Qed.

Lemma lookup_method api m d :
  In m allowed_methods ->
  In (Py.upper m, d) (terminals set_iter api) ->
  In m (recognized_methods set_iter api)
  /\ d = Lark.Pattern (method_pattern m).
Proof.
  intros Hm Hin. apply terminals_In in Hin.
  pose proof (upper_allowed_not_fixed m Hm) as Hfixed.
  destruct Hin as [H|[H|[(m' & Hm' & H)|[H|H]]]].
  - exfalso. apply Hfixed. injection H as -> _. cbn. tauto.
  - exfalso. apply Hfixed. injection H as -> _. cbn. tauto.
  - injection H as Hname ->.
    apply upper_allowed_inj in Hname;
      [subst m'; now split|exact Hm|eapply recognized_allowed; eauto].
  - exfalso. apply Hfixed. injection H as -> _. cbn. tauto.
  - exfalso. apply Hfixed. injection H as -> _. cbn. tauto.
Qed.

(** The construction call. *)
Lemma token_dataframe_call api s :
  Lark.token (terminals set_iter api) "DATAFRAME_CALL" s <->
  exists args, no_rparen args = true /\ s = "pl.DataFrame(" ++ args ++ ")".
Proof.
  unfold Lark.token. split.
  - intros (d & Hin & Hd). apply lookup_fixed in Hin; [|cbn; tauto].
    destruct Hin as [H|[H|[H|[H|[]]]]]; try discriminate H.
    injection H as <-. now apply call_pattern_matches in Hd.
  - intros Hs. eexists. split.
    + apply terminals_In. left. reflexivity.
    + now apply call_pattern_matches.
Qed.

(** The transition to the lazy form. *)
Lemma token_lazyframe_call api s :
  Lark.token (terminals set_iter api) "LAZYFRAME_CALL" s <-> s = ".lazy()".
Proof.
  unfold Lark.token. split.
  - intros (d & Hin & Hd). apply lookup_fixed in Hin; [|cbn; tauto].
    destruct Hin as [H|[H|[H|[H|[]]]]]; try discriminate H.
    injection H as <-. now apply lazy_call_pattern_matches in Hd.
  - intros ->. eexists. split.
    + apply terminals_In. right. left. reflexivity.
    + now apply lazy_call_pattern_matches.
Qed.

Lemma token_one_of api names s :
  (forall n, In n names -> exists m, In m allowed_methods /\ n = Py.upper m) ->
  (exists n items, In n names
                   /\ In (n, Lark.Pattern items) (terminals set_iter api)
                   /\ Lark.pattern_matches items s) <->
  exists m args, In (Py.upper m) names /\ In m allowed_methods
                 /\ In m (recognized_methods set_iter api)
                 /\ no_rparen args = true
                 /\ s = "." ++ m ++ "(" ++ args ++ ")".
Proof.
  intros Hnames. split.
  - intros (n & items & Hn & Hin & Hs).
    destruct (Hnames n Hn) as (m & Hm & ->).
    apply lookup_method in Hin; [|exact Hm]. destruct Hin as [Hrec Hitems].
    injection Hitems as ->. apply method_pattern_matches in Hs.
    destruct Hs as (args & Hargs & ->). exists m, args. auto.
  - intros (m & args & Hn & Hm & Hrec & Hargs & ->).
    exists (Py.upper m), (method_pattern m). split; [exact Hn|]. split.
    + apply terminals_In. right. right. left. now exists m.
    + apply method_pattern_matches. now exists args.
Qed.

End Table.

Section CallRules.

Variable set_iter : list string -> list string.
Hypothesis set_iter_In : forall xs x, In x (set_iter xs) <-> In x xs.

(** What an alternation rule over the upper-cased [methods] matches, with
    its placeholder when the list is empty. *)
Lemma call_def_matches api methods placeholder s :
  incl methods (dataframe_methods api ++ lazyframe_methods api)%list ->
  match
    match map Py.upper methods with
    | [] => Lark.Pattern [Lark.Re (Lark.literally placeholder)]
    | _ :: _ => Lark.OneOf (map Py.upper methods)
    end
  with
  | Lark.Pattern items => Lark.pattern_matches items s
  | Lark.OneOf names =>
      exists n items, In n names
                      /\ In (n, Lark.Pattern items) (terminals set_iter api)
                      /\ Lark.pattern_matches items s
  end <->
  (methods = [] /\ s = placeholder)
  \/ (exists m args, In m methods /\ no_rparen args = true
                     /\ s = "." ++ m ++ "(" ++ args ++ ")").
Proof.
  intros Hincl.
  assert (Hrec : forall m, In m methods ->
                   In m (recognized_methods set_iter api)).
  { intros m Hm. unfold recognized_methods. apply set_iter_In. auto. }
  assert (Hallowed : forall m, In m methods -> In m allowed_methods).
  { intros m Hm. eapply recognized_allowed; eauto. }
  destruct (map Py.upper methods) as [|t ts] eqn:Htokens.
  - apply map_eq_nil in Htokens. subst methods.
    rewrite placeholder_pattern_matches. split.
    + intros ->. now left.
    + intros [[_ ->]|(m & _ & [] & _)]. reflexivity.
  - assert (Hne : methods <> []) by (intros ->; discriminate).
    rewrite <- Htokens. clear Htokens.
    rewrite (token_one_of set_iter set_iter_In).
    + split.
      * intros (m & args & Hn & Hm & _ & Hargs & ->). right.
        exists m, args. split; [|now split].
        apply in_map_iff in Hn. destruct Hn as (m' & Heq & Hm').
        apply upper_allowed_inj in Heq; [now subst|auto|exact Hm].
      * intros [[Hnil _]|(m & args & Hm & Hargs & ->)]; [contradiction|].
        exists m, args. repeat split; auto. now apply in_map.
    + intros n Hn. apply in_map_iff in Hn. destruct Hn as (m & <- & Hm).
      exists m. auto.
Qed.

(** A builder method call. *)
Lemma token_df_method_call api s :
  Lark.token (terminals set_iter api) "DF_METHOD_CALL" s <->
  (dataframe_methods api = [] /\ s = "NO_DF_METHODS")
  \/ (exists m args, In m (dataframe_methods api) /\ no_rparen args = true
                     /\ s = "." ++ m ++ "(" ++ args ++ ")").
Proof.
  rewrite <- (call_def_matches api (dataframe_methods api))
    by (intros m Hm; apply in_or_app; now left).
  unfold Lark.token. split.
  - intros (d & Hin & Hd). apply lookup_fixed in Hin; [|auto|cbn; tauto].
    destruct Hin as [H|[H|[H|[H|[]]]]]; try discriminate H.
    unfold df_call_terminal, df_method_call_tokens in H.
    injection H as <-. exact Hd.
  - intros Hd. eexists. split; [|exact Hd].
    apply terminals_In. do 3 right. left. reflexivity.
Qed.

(** A lazy method call. *)
Lemma token_lf_method_call api s :
  Lark.token (terminals set_iter api) "LF_METHOD_CALL" s <->
  (lazyframe_methods api = [] /\ s = "NO_LF_METHODS")
  \/ (exists m args, In m (lazyframe_methods api) /\ no_rparen args = true
                     /\ s = "." ++ m ++ "(" ++ args ++ ")").
Proof.
  rewrite <- (call_def_matches api (lazyframe_methods api))
    by (intros m Hm; apply in_or_app; now right).
  unfold Lark.token. split.
  - intros (d & Hin & Hd). apply lookup_fixed in Hin; [|auto|cbn; tauto].
    destruct Hin as [H|[H|[H|[H|[]]]]]; try discriminate H.
    unfold lf_call_terminal, lf_method_call_tokens in H.
    injection H as <-. exact Hd.
  - intros Hd. eexists. split; [|exact Hd].
    apply terminals_In. do 4 right. reflexivity.
Qed.

End CallRules.

(** ** Claims about the synthesiser *)

Lemma method_rule_not_fixed m :
  In m allowed_methods ->
  existsb (fun t => defines t (method_rule m)) fixed_terminals = false.
Proof. intros H. cbv [allowed_methods] in H. each_member H; reflexivity. Qed.

Lemma call_rules_fixed api :
  existsb (fun t => defines t (df_call_rule api)) fixed_terminals = true
  /\ existsb (fun t => defines t (lf_call_rule api)) fixed_terminals = true.
Proof.
  unfold df_call_rule, lf_call_rule.
  destruct (df_method_call_tokens api), (lf_method_call_tokens api);
    split; reflexivity.
Qed.

Section Claims.

Variable set_iter : list string -> list string.
Hypothesis set_iter_NoDup : forall xs, NoDup (set_iter xs).
Hypothesis set_iter_In : forall xs x, In x (set_iter xs) <-> In x xs.

Lemma method_terminal_lines_generate api :
  method_terminal_lines (generate_lark_grammar set_iter api) =
  method_rules set_iter api.
Proof.
  unfold method_terminal_lines.
  rewrite (terminal_lines_generate set_iter set_iter_In).
  unfold terminals. rewrite !map_app, !filter_app, map_map.
  replace (filter _ (map Lark.render_terminal
                       [dataframe_call_terminal; lazyframe_call_terminal]))
    with (@nil string) by (vm_compute; reflexivity).
  cbn [map filter app].
  rewrite <- df_call_rule_renders, <- lf_call_rule_renders.
  destruct (call_rules_fixed api) as [-> ->]. cbn [negb].
  rewrite app_nil_r. apply filter_all, Forall_forall.
  intros r Hr. apply in_map_iff in Hr. destruct Hr as (m & <- & Hm).
  change (negb (existsb (fun t => defines t (method_rule m)) fixed_terminals)
          = true).
  rewrite method_rule_not_fixed; [reflexivity|].
  eapply recognized_allowed; eauto.
Qed.

(** C1: the text holds exactly one terminal rule per method of the union
    of the two filtered method sets and none for any other method: the
    per-method terminal lines are the rules of a duplicate-free list of
    exactly these methods, each method's rule is the only line defining
    the upper-cased name, and that rule is the rendering of a pattern
    matching a dot, the method name, an opening parenthesis, any run of
    characters other than the closing parenthesis, and a closing
    parenthesis. *)
Theorem one_terminal_rule_per_recognized_method api :
  exists methods,
    NoDup methods
    /\ (forall m, In m methods <->
          (In m (Py.keys (df_methods api)) /\ In m known_df_methods)
          \/ (In m (Py.keys (lf_methods api)) /\ In m known_lf_methods))
    /\ method_terminal_lines (generate_lark_grammar set_iter api) =
       map method_rule methods
    /\ (forall m, In m methods ->
          definitions_of (Py.upper m) (generate_lark_grammar set_iter api) =
          [method_rule m])
    /\ (forall m,
          method_rule m =
          Py.upper m ++ ": " ++ Lark.render_def (Lark.Pattern (method_pattern m))
          /\ forall s, Lark.pattern_matches (method_pattern m) s <->
               exists args, no_rparen args = true
                            /\ s = "." ++ m ++ "(" ++ args ++ ")").
Proof.
  exists (recognized_methods set_iter api).
  split; [apply set_iter_NoDup|].
  split; [intros m; now apply recognized_iff|].
  split; [apply method_terminal_lines_generate|].
  split; [intros m; now apply definitions_of_recognized|].
  intros m. split; [reflexivity|]. intros s. apply method_pattern_matches.
Qed.

(** C2: every name listed in the alternation rule of either role is the
    upper-cased name of a method whose terminal rule is the one and only
    line of the same text that defines that name; the alternation rule of
    a role with recognized methods is the line listing these names. *)
Theorem listed_method_has_one_terminal_rule api t :
  In t (df_method_call_tokens api) \/ In t (lf_method_call_tokens api) ->
  (In t (df_method_call_tokens api) ->
     definitions_of "DF_METHOD_CALL" (generate_lark_grammar set_iter api) =
     ["DF_METHOD_CALL: " ++ Py.join " | " (df_method_call_tokens api)])
  /\ (In t (lf_method_call_tokens api) ->
     definitions_of "LF_METHOD_CALL" (generate_lark_grammar set_iter api) =
     ["LF_METHOD_CALL: " ++ Py.join " | " (lf_method_call_tokens api)])
  /\ List.length (definitions_of t (generate_lark_grammar set_iter api)) = 1
  /\ exists m, t = Py.upper m
               /\ definitions_of t (generate_lark_grammar set_iter api) =
                  [method_rule m].
Proof.
  intros Hlisted.
  destruct (definitions_of_call_rules set_iter set_iter_In api) as [Hdf Hlf].
  split; [|split].
  - intros Ht. rewrite Hdf. unfold df_call_rule.
    now destruct (df_method_call_tokens api).
  - intros Ht. rewrite Hlf. unfold lf_call_rule.
    now destruct (lf_method_call_tokens api).
  - assert (Hm : exists m, t = Py.upper m
                           /\ In m (recognized_methods set_iter api)).
    { unfold df_method_call_tokens, lf_method_call_tokens in Hlisted.
      rewrite !in_map_iff in Hlisted.
      destruct Hlisted as [(m & <- & Hm)|(m & <- & Hm)]; exists m;
        (split; [reflexivity|]); unfold recognized_methods;
        apply set_iter_In, in_or_app; auto. }
    destruct Hm as (m & -> & Hm).
    rewrite (definitions_of_recognized set_iter set_iter_NoDup set_iter_In)
      by exact Hm.
    split; [reflexivity|]. now exists m.
Qed.

(** C9: the text depends on the API map only through the key sequences
    of its [DataFrame] and [LazyFrame] entries; the return types play no
    part. *)
Theorem grammar_depends_on_method_names_only api1 api2 :
  Py.keys (df_methods api1) = Py.keys (df_methods api2) ->
  Py.keys (lf_methods api1) = Py.keys (lf_methods api2) ->
  generate_lark_grammar set_iter api1 = generate_lark_grammar set_iter api2.
Proof.
  intros Hdf Hlf.
  unfold generate_lark_grammar, method_rules, recognized_methods,
    df_call_rule, lf_call_rule, df_method_call_tokens,
    lf_method_call_tokens, dataframe_methods, lazyframe_methods.
  now rewrite Hdf, Hlf.
Qed.

End Claims.

(** ** Parsing *)

Lemma append_cancel_l p a b : p ++ a = p ++ b -> a = b.
Proof.
  induction p as [|c p IH]; cbn [append]; [auto|].
  intros H. injection H as H. auto.
Qed.

(** The text up to the first closing parenthesis is determined. *)
Lemma split_at_rparen a : forall a' r r',
  no_rparen a = true -> no_rparen a' = true ->
  a ++ ")" ++ r = a' ++ ")" ++ r' -> a = a' /\ r = r'.
Proof.
  induction a as [|c a IH]; intros [|c' a'] r r' Ha Ha' Heq;
    cbn [append no_rparen] in *.
  - injection Heq as Heq. now split.
  - injection Heq as Hc _. subst c'. discriminate Ha'.
  - injection Heq as Hc _. subst c. discriminate Ha.
  - injection Heq as Hc Heq. subst c'.
    apply andb_true_iff in Ha, Ha'.
    destruct (IH a' r r') as [-> ->]; tauto.
Qed.

Lemma upper_nonempty m :
  In m allowed_methods -> exists c rest, Py.upper m = String c rest.
Proof.
  intros H. cbv [allowed_methods] in H. each_member H; cbn; eauto.
Qed.

Section Parsing.

Variable set_iter : list string -> list string.
Hypothesis set_iter_In : forall xs x, In x (set_iter xs) <-> In x xs.

(** After the construction call, what is left of [collect_snippet] is
    the call to [collect]. *)
Lemma collect_snippet_rest api call rest :
  Lark.token (terminals set_iter api) "DATAFRAME_CALL" call ->
  collect_snippet = call ++ rest -> rest = ".collect()".
Proof.
  intros Hcall Heq.
  apply (token_dataframe_call set_iter set_iter_In) in Hcall.
  destruct Hcall as (args & Hargs & ->).
  remember ("{" ++ quoted "x" ++ ": [1,2,3]}") as braces eqn:Hbraces.
  assert (Hno : no_rparen braces = true) by now subst braces.
  change collect_snippet
    with ("pl.DataFrame(" ++ ("{" ++ quoted "x" ++ ": [1,2,3]}")
          ++ ")" ++ ".collect()") in Heq.
  rewrite <- Hbraces in Heq. clear Hbraces.
  rewrite !append_assoc in Heq. apply append_cancel_l in Heq.
  apply split_at_rparen in Heq; [|exact Hno|exact Hargs].
  now destruct Heq.
Qed.

(** C8: whatever the API map, the grammar does not derive the snippet
    that calls [collect] straight on the frame: [collect] is on the lazy
    allow-list only, so no builder method call starts the remaining
    text, and the remaining text is no transition to the lazy form
    either.  The parser therefore rejects the snippet. *)
Theorem collect_without_lazy_is_rejected api :
  ~ In "collect" known_df_methods
  /\ ~ derives set_iter api collect_snippet.
Proof.
  split; [cbn; intuition discriminate|].
  intros [Hdf|Hlf].
  - destruct Hdf as (call & rest & Heq & Hcall & Hrest).
    apply (collect_snippet_rest api call rest Hcall) in Heq. subst rest.
    destruct Hrest as [Hrest|(calls & Hne & Hrest & Hcalls)];
      [discriminate|].
    destruct calls as [|c calls]; [congruence|].
    rewrite concat_empty_cons in Hrest.
    inversion Hcalls as [|? ? Hc _]; subst.
    apply (token_df_method_call set_iter set_iter_In) in Hc.
    destruct Hc as [[_ ->]|(m & args & Hm & _ & ->)]; [discriminate|].
    apply filter_mem_In in Hm. destruct Hm as [_ Hm].
    cbv [known_df_methods] in Hm. each_member Hm; discriminate.
  - destruct Hlf as (call & lazy & rest & Heq & Hcall & Hlazy & _).
    apply (collect_snippet_rest api call _ Hcall) in Heq.
    apply (token_lazyframe_call set_iter set_iter_In) in Hlazy. subst lazy.
    discriminate.
Qed.

Lemma call_rule_bodies_nonempty api :
  exists df_body lf_body,
    df_body <> EmptyString /\ lf_body <> EmptyString
    /\ df_call_rule api = "DF_METHOD_CALL: " ++ df_body
    /\ lf_call_rule api = "LF_METHOD_CALL: " ++ lf_body.
Proof.
  assert (Hjoin : forall methods,
            (forall m, In m methods -> In m allowed_methods) ->
            methods <> [] ->
            Py.join " | " (map Py.upper methods) <> EmptyString).
  { intros [|m [|m' methods]] Hall Hne; [congruence| |];
      destruct (upper_nonempty m (Hall m (or_introl eq_refl)))
        as (c & r & Hc); cbn [map Py.join String.concat]; rewrite Hc;
      discriminate. }
  unfold df_call_rule, lf_call_rule, df_method_call_tokens,
    lf_method_call_tokens.
  exists (match map Py.upper (dataframe_methods api) with
          | [] => "/NO_DF_METHODS/"
          | _ :: _ => Py.join " | " (map Py.upper (dataframe_methods api))
          end),
         (match map Py.upper (lazyframe_methods api) with
          | [] => "/NO_LF_METHODS/"
          | _ :: _ => Py.join " | " (map Py.upper (lazyframe_methods api))
          end).
  repeat split.
  - destruct (dataframe_methods api) eqn:H; [discriminate|].
    rewrite <- H. cbn [map]. rewrite H at 1. cbn [map].
    apply Hjoin; [apply dataframe_methods_allowed|congruence].
  - destruct (lazyframe_methods api) eqn:H; [discriminate|].
    rewrite <- H. cbn [map]. rewrite H at 1. cbn [map].
    apply Hjoin; [apply lazyframe_methods_allowed|congruence].
  - now destruct (map Py.upper (dataframe_methods api)).
  - now destruct (map Py.upper (lazyframe_methods api)).
Qed.

(** C3, amended: a role without recognized methods still has its
    alternation rule, the single line defining it, whose body is the
    placeholder pattern; that pattern matches its own literal text and
    nothing else, so no method call goes through that branch; and for
    every API map both alternation rules have a non-empty body. *)
Theorem empty_role_gets_placeholder_rule api :
  (dataframe_methods api = [] ->
     definitions_of "DF_METHOD_CALL" (generate_lark_grammar set_iter api) =
     ["DF_METHOD_CALL: /NO_DF_METHODS/"]
     /\ forall s, Lark.token (terminals set_iter api) "DF_METHOD_CALL" s <->
                  s = "NO_DF_METHODS")
  /\ (lazyframe_methods api = [] ->
     definitions_of "LF_METHOD_CALL" (generate_lark_grammar set_iter api) =
     ["LF_METHOD_CALL: /NO_LF_METHODS/"]
     /\ forall s, Lark.token (terminals set_iter api) "LF_METHOD_CALL" s <->
                  s = "NO_LF_METHODS")
  /\ exists df_body lf_body,
       df_body <> EmptyString /\ lf_body <> EmptyString
       /\ df_call_rule api = "DF_METHOD_CALL: " ++ df_body
       /\ lf_call_rule api = "LF_METHOD_CALL: " ++ lf_body.
Proof.
  destruct (definitions_of_call_rules set_iter set_iter_In api) as [Hdf Hlf].
  split; [|split; [|apply call_rule_bodies_nonempty]].
  - intros Hnone. split.
    + rewrite Hdf. unfold df_call_rule, df_method_call_tokens.
      now rewrite Hnone.
    + intros s. rewrite (token_df_method_call set_iter set_iter_In), Hnone.
      split; [|now left].
      intros [[_ ->]|(m & _ & [] & _)]. reflexivity.
  - intros Hnone. split.
    + rewrite Hlf. unfold lf_call_rule, lf_method_call_tokens.
      now rewrite Hnone.
    + intros s. rewrite (token_lf_method_call set_iter set_iter_In), Hnone.
      split; [|now left].
      intros [[_ ->]|(m & _ & [] & _)]. reflexivity.
Qed.

End Parsing.

(** ** Iteration orders *)

Lemma insertion_order_NoDup xs : NoDup (insertion_order xs).
Proof. apply NoDup_rev, NoDup_nodup. Qed.

Lemma insertion_order_In xs x : In x (insertion_order xs) <-> In x xs.
Proof.
  unfold insertion_order. now rewrite <- in_rev, nodup_In, <- in_rev.
Qed.

Lemma reverse_insertion_order_NoDup xs : NoDup (reverse_insertion_order xs).
Proof. apply NoDup_nodup. Qed.

Lemma reverse_insertion_order_In xs x :
  In x (reverse_insertion_order xs) <-> In x xs.
Proof. unfold reverse_insertion_order. now rewrite nodup_In, <- in_rev. Qed.

(** ** The grammar at work *)

(** The lazy chain of the test suite is derived under the sample API. *)
Lemma lazy_snippet_is_derived : derives insertion_order demo_api lazy_snippet.
Proof.
  right.
  exists ("pl.DataFrame({" ++ quoted "x" ++ ": [1,2,3]})"), ".lazy()",
         (".filter(x > 1).select(" ++ quoted "x" ++ ")").
  split; [reflexivity|]. split; [|split].
  - apply (token_dataframe_call _ insertion_order_In).
    exists ("{" ++ quoted "x" ++ ": [1,2,3]}"). now split.
  - now apply (token_lazyframe_call _ insertion_order_In).
  - right. exists [".filter(x > 1)"; ".select(" ++ quoted "x" ++ ")"].
    split; [discriminate|]. split; [reflexivity|].
    repeat constructor;
      apply (token_lf_method_call _ insertion_order_In); right.
    + exists "filter", "x > 1". split; [cbv; auto|]. now split.
    + exists "select", (quoted "x"). split; [cbv; auto|]. now split.
Qed.

(** The bare construction call is derived under every API map. *)
Lemma construction_call_is_derived api :
  derives insertion_order api ("pl.DataFrame({" ++ quoted "x" ++ ": [1,2,3]})").
Proof.
  left. exists ("pl.DataFrame({" ++ quoted "x" ++ ": [1,2,3]})"), EmptyString.
  split; [reflexivity|]. split; [|now left].
  apply (token_dataframe_call _ insertion_order_In).
  exists ("{" ++ quoted "x" ++ ": [1,2,3]}"). now split.
Qed.

(** C3, the claim as written, fails: with no recognized method at all the
    placeholder of the builder role is a pattern that the input text
    [NO_DF_METHODS] matches, and the grammar derives an input that goes
    through that branch. *)
Lemma placeholder_matches_its_own_text :
  dataframe_methods [] = []
  /\ Lark.token (terminals insertion_order []) "DF_METHOD_CALL" "NO_DF_METHODS"
  /\ derives insertion_order [] "pl.DataFrame()NO_DF_METHODS".
Proof.
  assert (Htoken : Lark.token (terminals insertion_order [])
                              "DF_METHOD_CALL" "NO_DF_METHODS").
  { apply (token_df_method_call _ insertion_order_In). now left. }
  split; [reflexivity|]. split; [exact Htoken|].
  left. exists "pl.DataFrame()", "NO_DF_METHODS".
  split; [reflexivity|]. split.
  - apply (token_dataframe_call _ insertion_order_In).
    exists EmptyString. now split.
  - right. exists ["NO_DF_METHODS"].
    split; [discriminate|]. split; [reflexivity|]. now repeat constructor.
Qed.

(** ** The claims at concrete inputs *)

Lemma one_terminal_rule_per_recognized_method_witness :
  (forall xs, NoDup (insertion_order xs))
  /\ (forall xs x, In x (insertion_order xs) <-> In x xs)
  /\ exists methods,
       NoDup methods
       /\ (forall m, In m methods <->
             (In m (Py.keys (df_methods demo_api)) /\ In m known_df_methods)
             \/ (In m (Py.keys (lf_methods demo_api)) /\ In m known_lf_methods))
       /\ method_terminal_lines (generate_lark_grammar insertion_order demo_api)
          = map method_rule methods
       /\ (forall m, In m methods ->
             definitions_of (Py.upper m)
                            (generate_lark_grammar insertion_order demo_api) =
             [method_rule m])
       /\ (forall m,
             method_rule m =
             Py.upper m ++ ": "
               ++ Lark.render_def (Lark.Pattern (method_pattern m))
             /\ forall s, Lark.pattern_matches (method_pattern m) s <->
                  exists args, no_rparen args = true
                               /\ s = "." ++ m ++ "(" ++ args ++ ")").
Proof.
  split; [exact insertion_order_NoDup|].
  split; [exact insertion_order_In|].
  exact (one_terminal_rule_per_recognized_method
           insertion_order insertion_order_NoDup insertion_order_In demo_api).
Defined.

Lemma listed_method_has_one_terminal_rule_witness :
  (forall xs, NoDup (reverse_insertion_order xs))
  /\ (forall xs x, In x (reverse_insertion_order xs) <-> In x xs)
  /\ (In "FILTER" (df_method_call_tokens demo_api)
      \/ In "FILTER" (lf_method_call_tokens demo_api))
  /\ List.length
       (definitions_of "FILTER"
          (generate_lark_grammar reverse_insertion_order demo_api)) = 1.
Proof.
  assert (Hlisted : In "FILTER" (df_method_call_tokens demo_api)
                    \/ In "FILTER" (lf_method_call_tokens demo_api))
    by (left; vm_compute; auto).
  split; [exact reverse_insertion_order_NoDup|].
  split; [exact reverse_insertion_order_In|].
  split; [exact Hlisted|].
  exact (proj1 (proj2 (proj2
           (listed_method_has_one_terminal_rule
              reverse_insertion_order reverse_insertion_order_NoDup
              reverse_insertion_order_In demo_api "FILTER" Hlisted)))).
Defined.

Lemma empty_role_gets_placeholder_rule_witness :
  (forall xs x, In x (insertion_order xs) <-> In x xs)
  /\ dataframe_methods [] = []
  /\ lazyframe_methods [] = []
  /\ definitions_of "DF_METHOD_CALL" (generate_lark_grammar insertion_order [])
     = ["DF_METHOD_CALL: /NO_DF_METHODS/"]
  /\ definitions_of "LF_METHOD_CALL" (generate_lark_grammar insertion_order [])
     = ["LF_METHOD_CALL: /NO_LF_METHODS/"].
Proof.
  split; [exact insertion_order_In|].
  split; [reflexivity|]. split; [reflexivity|].
  destruct (empty_role_gets_placeholder_rule insertion_order insertion_order_In [])
    as (Hdf & Hlf & _).
  split.
  - exact (proj1 (Hdf eq_refl)).
  - exact (proj1 (Hlf eq_refl)).
Defined.

Lemma plain_chain_flattens_to_its_names_witness :
  plain_chain [ExprName "pl"; ExprAttribute [ExprName "a"; ExprName "b"]] = true
  /\ _flatten_expr_attribute
       [ExprName "pl"; ExprAttribute [ExprName "a"; ExprName "b"]] <> [].
Proof.
  split; [reflexivity|].
  exact (proj1 (plain_chain_flattens_to_its_names
                  [ExprName "pl"; ExprAttribute [ExprName "a"; ExprName "b"]]
                  eq_refl)).
Defined.

Lemma unresolved_class_is_omitted_witness :
  find_object_by_name demo_module "Expr" = None
  /\ Py.get (build_polars_api_map demo_module) "Expr" = None
  /\ ~ In "Expr" (Py.keys (build_polars_api_map demo_module)).
Proof.
  split; [reflexivity|].
  exact (unresolved_class_is_omitted demo_module "Expr" eq_refl).
Defined.

Lemma collect_without_lazy_is_rejected_witness :
  (forall xs x, In x (reverse_insertion_order xs) <-> In x xs)
  /\ ~ In "collect" known_df_methods
  /\ ~ derives reverse_insertion_order demo_api collect_snippet.
Proof.
  split; [exact reverse_insertion_order_In|].
  exact (collect_without_lazy_is_rejected
           reverse_insertion_order reverse_insertion_order_In demo_api).
Defined.

Lemma grammar_depends_on_method_names_only_witness :
  Py.keys (df_methods demo_api) = Py.keys (df_methods demo_api_untyped)
  /\ Py.keys (lf_methods demo_api) = Py.keys (lf_methods demo_api_untyped)
  /\ demo_api <> demo_api_untyped
  /\ generate_lark_grammar insertion_order demo_api =
     generate_lark_grammar insertion_order demo_api_untyped.
Proof.
  split; [reflexivity|]. split; [reflexivity|].
  split; [discriminate|].
  exact (grammar_depends_on_method_names_only
           insertion_order demo_api demo_api_untyped eq_refl eq_refl).
Defined.

(** * Further properties of the code *)

(** ** Suffix matching *)

Lemma length_append a b :
  String.length (a ++ b) = String.length a + String.length b.
Proof. induction a as [|c a IH]; cbn; [reflexivity|now rewrite IH]. Qed.

Lemma substring_full t : substring 0 (String.length t) t = t.
Proof. induction t as [|c t IH]; cbn; [reflexivity|now rewrite IH]. Qed.

Lemma substring_skip p : forall m t,
  substring (String.length p) m (p ++ t) = substring 0 m t.
Proof. induction p as [|c p IH]; intros m t; cbn; [reflexivity|apply IH]. Qed.

Lemma substring_split s : forall i m,
  i + m = String.length s -> s = substring 0 i s ++ substring i m s.
Proof.
  induction s as [|c s IH]; intros [|i] m Hlen; cbn in *.
  - now subst m.
  - discriminate.
  - subst m. cbn. now rewrite substring_full.
  - f_equal. apply IH. lia.
Qed.

Lemma endswith_iff s suffix :
  Py.endswith s suffix = true <-> exists prefix, s = prefix ++ suffix.
Proof.
  unfold Py.endswith. rewrite andb_true_iff, Nat.leb_le, String.eqb_eq. split.
  - intros [Hle Hsub].
    exists (substring 0 (String.length s - String.length suffix) s).
    rewrite <- Hsub at 2. apply substring_split. lia.
  - intros (prefix & ->). rewrite length_append. split; [lia|].
    replace (String.length prefix + String.length suffix - String.length suffix)
      with (String.length prefix) by lia.
    rewrite substring_skip. apply substring_full.
Qed.

(** X1: the search matches by suffix, not by equality.  A node it returns
    lies in the tree and its name is the requested name preceded by some,
    possibly empty, text. *)
Theorem search_matches_by_suffix module target n :
  find_object_by_name module target = Some n ->
  in_tree n module /\ exists prefix, name n = prefix ++ target.
Proof.
  rewrite find_object_by_name_examined. intros Hfound.
  apply find_some in Hfound. destruct Hfound as [Hin Hends].
  split; [now apply examined_in_tree|now apply endswith_iff].
Qed.

(** X2: every name ends with the empty text, so the search for the empty
    name returns the tree it is given, whatever its name and members. *)
Theorem empty_target_returns_the_root module :
  find_object_by_name module EmptyString = Some module.
Proof.
  rewrite find_object_by_name_unfold.
  replace (Py.endswith (name module) EmptyString) with true; [reflexivity|].
  symmetry. apply endswith_iff. exists (name module).
  now rewrite append_nil_r.
Qed.

(** ** Cost of the search *)

Lemma size_unfold module :
  size module = S (list_sum (map size (Py.values (members module)))).
Proof.
  destruct module as [nm ms f r]. cbn [size members]. f_equal.
  induction ms as [|[k child] ms IH]; cbn; [reflexivity|now rewrite IH].
Qed.

Lemma name_tests_unfold module target :
  name_tests module target =
  S (if Py.endswith (name module) target then 0
     else tests_until (fun member => Py.endswith (name member) target)
                      (Py.values (members module))
          + match find (fun member => Py.endswith (name member) target)
                       (Py.values (members module)) with
            | Some _ => 0
            | None => tests_each target (Py.values (members module))
            end).
Proof.
  destruct module as [nm ms f r]. cbn [name_tests name members]. f_equal.
  destruct (Py.endswith nm target); [reflexivity|]. f_equal.
  destruct (find _ _); [reflexivity|].
  induction ms as [|[k child] ms IH]; cbn; [reflexivity|now rewrite IH].
Qed.

Lemma tests_until_le {A} (p : A -> bool) xs : tests_until p xs <= List.length xs.
Proof.
  induction xs as [|x xs IH]; cbn; [lia|]. destruct (p x); lia.
Qed.

Lemma tests_until_none {A} (p : A -> bool) xs :
  find p xs = None -> tests_until p xs = List.length xs.
Proof.
  induction xs as [|x xs IH]; cbn; [reflexivity|].
  destruct (p x); [discriminate|]. intros H. now rewrite IH.
Qed.

Lemma list_sum_cons x xs : list_sum (x :: xs) = x + list_sum xs.
Proof. reflexivity. Qed.

Lemma children_le_sizes children :
  List.length children <= list_sum (map size children).
Proof.
  induction children as [|child children IH]; cbn [List.length map]; [cbn; lia|].
  rewrite list_sum_cons, (size_unfold child). lia.
Qed.

Lemma tests_each_le target children :
  Forall (fun child => name_tests child target + 1 <= 2 * size child) children ->
  tests_each target children + List.length children
  <= 2 * list_sum (map size children).
Proof.
  induction 1 as [|child children Hchild _ IH]; cbn [tests_each List.length map];
    [cbn; lia|].
  rewrite list_sum_cons. pose proof (children_le_sizes children).
  destruct (find_object_by_name child target); lia.
Qed.

Lemma tests_each_none target children :
  Forall (fun child => find_object_by_name child target = None ->
                       name_tests child target + 1 = 2 * size child) children ->
  search_each target children = None ->
  tests_each target children + List.length children
  = 2 * list_sum (map size children).
Proof.
  induction 1 as [|child children Hchild _ IH];
    cbn [tests_each search_each List.length map]; [cbn; lia|].
  rewrite list_sum_cons.
  destruct (find_object_by_name child target); [discriminate|].
  intros Hnone. specialize (IH Hnone). specialize (Hchild eq_refl). lia.
Qed.

(** X3: one search performs fewer name tests than twice the number of
    nodes of the tree, and exactly one less than twice that number when it
    finds nothing (every node but the root is tested twice: as a member of
    its parent and as the root of its own search). *)
Theorem name_tests_bound module target :
  name_tests module target + 1 <= 2 * size module
  /\ (find_object_by_name module target = None ->
      name_tests module target + 1 = 2 * size module).
Proof.
  induction module as [nm ms f r IH] using node_induction.
  rewrite name_tests_unfold, size_unfold, find_object_by_name_unfold.
  cbn [name members].
  assert (Hle : Forall (fun child => name_tests child target + 1
                                     <= 2 * size child) (Py.values ms))
    by (eapply Forall_impl; [|exact IH]; now intros ? []).
  assert (Heq : Forall (fun child => find_object_by_name child target = None ->
                          name_tests child target + 1 = 2 * size child)
                       (Py.values ms))
    by (eapply Forall_impl; [|exact IH]; now intros ? []).
  pose proof (tests_each_le target _ Hle) as Heach.
  pose proof (tests_until_le (fun member => Py.endswith (name member) target)
                             (Py.values ms)) as Huntil.
  destruct (Py.endswith nm target).
  - split; [lia|discriminate].
  - destruct (find _ (Py.values ms)) eqn:Hfind.
    + split; [lia|discriminate].
    + split; [lia|]. intros Hnone.
      pose proof (tests_each_none target _ Heq Hnone).
      rewrite (tests_until_none _ _ Hfind). lia.
Qed.

(** ** The discovered API map *)

Lemma set_fresh {V} (d : Py.dict V) k v :
  ~ In k (Py.keys d) -> Py.set d k v = (d ++ [(k, v)])%list.
Proof.
  induction d as [|[k0 v0] d IH]; cbn [Py.set Py.keys map fst In app];
    [reflexivity|].
  intros Hfresh. destruct (String.eqb_spec k0 k) as [->|_]; [tauto|].
  unfold Py.keys in IH. rewrite IH by tauto. reflexivity.
Qed.

Section Members.

Context {A V : Type} (keep : A -> bool) (convert : A -> V).

Lemma kept_keys_In items : forall init k,
  In k (Py.keys (fold_left (record_if keep convert) items init)) <->
  In k (Py.keys init) \/ exists a, In (k, a) items /\ keep a = true.
Proof.
  induction items as [|[k0 a0] items IH]; intros init k; cbn [fold_left In].
  - split; [auto|]. now intros [H|(a & [] & _)].
  - rewrite IH. unfold record_if. split.
    + intros [Hin|(a & Hin & Hkeep)]; [|right; eauto].
      destruct (keep a0) eqn:Hkeep0; [|now left].
      rewrite set_keys in Hin. destruct (Py.mem k0 (Py.keys init));
        [now left|].
      apply in_app_or in Hin. destruct Hin as [Hin|[<-|[]]]; [now left|].
      right. exists a0. auto.
    + intros [Hin|(a & [Heq|Hin] & Hkeep)].
      * left. destruct (keep a0); [|exact Hin].
        rewrite set_keys. destruct (Py.mem k0 (Py.keys init)); [exact Hin|].
        apply in_or_app. now left.
      * injection Heq as <- <-. left. rewrite Hkeep, set_keys.
        destruct (Py.mem k0 (Py.keys init)) eqn:Hmem;
          [now apply mem_In|apply in_or_app; right; now left].
      * right. eauto.
Qed.

Lemma kept_keys_NoDup items : forall init,
  NoDup (Py.keys init) -> NoDup (Py.keys (fold_left (record_if keep convert) items init)).
Proof.
  induction items as [|[k0 a0] items IH]; intros init Hinit; cbn [fold_left];
    [exact Hinit|].
  apply IH. unfold record_if.
  destruct (keep a0); [now apply set_keys_NoDup|exact Hinit].
Qed.

Lemma kept_items items : forall init,
  NoDup (Py.keys items) ->
  (forall k, In k (Py.keys items) -> ~ In k (Py.keys init)) ->
  fold_left (record_if keep convert) items init =
  (init ++ map (fun '(k, a) => (k, convert a))
               (filter (fun '(_, a) => keep a) items))%list.
Proof.
  induction items as [|[k0 a0] items IH]; intros init Hnodup Hfresh;
    cbn [fold_left filter map]; [now rewrite app_nil_r|].
  cbn [Py.keys map fst] in Hnodup. inversion Hnodup as [|? ? Hk0 Hrest]; subst.
  rewrite IH; [|exact Hrest|].
  - unfold record_if. destruct (keep a0); [|reflexivity].
    rewrite set_fresh by (apply Hfresh; now left).
    cbn [map]. now rewrite <- app_assoc.
  - intros k Hk. unfold record_if. destruct (keep a0);
      [|apply Hfresh; now right].
    rewrite set_keys. intros Hin.
    destruct (Py.mem k0 (Py.keys init)).
    + apply (Hfresh k); [now right|exact Hin].
    + apply in_app_or in Hin. destruct Hin as [Hin|[<-|[]]].
      * apply (Hfresh k); [now right|exact Hin].
      * contradiction.
Qed.

End Members.

Lemma methods_dict_fold cls_obj :
  methods_dict cls_obj =
  fold_left (record_if is_function (fun a => normalize_returns (returns a)))
            (members cls_obj) [].
Proof. reflexivity. Qed.

(** X4: the keys of the discovered API map are the wanted class names that
    the search resolves, in the order [DataFrame], [LazyFrame], [Expr] and
    without repetition; no other name is ever a key. *)
Theorem api_map_keys polars_module :
  Py.keys (build_polars_api_map polars_module) =
  filter (fun cls_name =>
            match find_object_by_name polars_module cls_name with
            | Some _ => true
            | None => false
            end) interesting_classes.
Proof.
  unfold build_polars_api_map, found_objects, interesting_classes.
  cbn [fold_left filter].
  destruct (find_object_by_name polars_module "DataFrame");
    destruct (find_object_by_name polars_module "LazyFrame");
    destruct (find_object_by_name polars_module "Expr"); reflexivity.
Qed.

(** X5: a wanted class name that the search resolves is mapped to the
    methods of the node found for it. *)
Theorem resolved_class_lookup polars_module cls_name cls_obj :
  In cls_name interesting_classes ->
  find_object_by_name polars_module cls_name = Some cls_obj ->
  Py.get (build_polars_api_map polars_module) cls_name =
  Some (methods_dict cls_obj).
Proof.
  intros Hwanted Hfound. rewrite build_polars_api_map_get, Hfound.
  now rewrite (proj2 (mem_In _ _) Hwanted).
Qed.

(** X6: for a class whose member names are distinct, the methods recorded
    are its function-like members, in member order, each with its
    normalised return type; members that are not function-like are left
    out, and a method without annotation is kept with an absent type. *)
Theorem methods_dict_of_distinct_members cls_obj :
  NoDup (Py.keys (members cls_obj)) ->
  methods_dict cls_obj =
  map (fun '(subname, subobj) => (subname, normalize_returns (returns subobj)))
      (filter (fun '(_, subobj) => is_function subobj) (members cls_obj)).
Proof.
  intros Hdistinct. rewrite methods_dict_fold.
  rewrite (kept_items is_function (fun a => normalize_returns (returns a)));
    [reflexivity|exact Hdistinct|auto].
Qed.

Lemma methods_dict_keys_In cls_obj m :
  In m (Py.keys (methods_dict cls_obj)) <->
  exists subobj, In (m, subobj) (members cls_obj) /\ is_function subobj = true.
Proof.
  rewrite methods_dict_fold.
  rewrite (kept_keys_In is_function (fun a => normalize_returns (returns a))).
  cbn [Py.keys map In]. tauto.
Qed.

Lemma methods_dict_keys_NoDup cls_obj : NoDup (Py.keys (methods_dict cls_obj)).
Proof.
  rewrite methods_dict_fold.
  apply (kept_keys_NoDup is_function (fun a => normalize_returns (returns a))).
  constructor.
Qed.

Lemma built_class_methods polars_module cls_name :
  In cls_name interesting_classes ->
  Py.get_default (build_polars_api_map polars_module) cls_name [] =
  match find_object_by_name polars_module cls_name with
  | Some cls_obj => methods_dict cls_obj
  | None => []
  end.
Proof.
  intros Hwanted. unfold Py.get_default.
  rewrite build_polars_api_map_get, (proj2 (mem_In _ _) Hwanted).
  now destruct (find_object_by_name polars_module cls_name).
Qed.

(** X7: reflector and synthesiser composed.  A method is recognized for
    the builder role of the grammar built from a member tree exactly when
    it is on the builder allow-list and is the name of a function-like
    member of the node the search finds for [DataFrame]; likewise for the
    lazy role with [LazyFrame]. *)
Theorem recognized_methods_of_a_tree polars_module m :
  (In m (dataframe_methods (build_polars_api_map polars_module)) <->
   In m known_df_methods
   /\ exists cls_obj subobj,
        find_object_by_name polars_module "DataFrame" = Some cls_obj
        /\ In (m, subobj) (members cls_obj) /\ is_function subobj = true)
  /\ (In m (lazyframe_methods (build_polars_api_map polars_module)) <->
      In m known_lf_methods
      /\ exists cls_obj subobj,
           find_object_by_name polars_module "LazyFrame" = Some cls_obj
           /\ In (m, subobj) (members cls_obj) /\ is_function subobj = true).
Proof.
  unfold dataframe_methods, lazyframe_methods, df_methods, lf_methods.
  rewrite !filter_mem_In, !built_class_methods by (cbn; tauto).
  split.
  - destruct (find_object_by_name polars_module "DataFrame") as [cls|].
    + rewrite methods_dict_keys_In. split.
      * intros [(sub & Hin & Hf) Hallow]. split; [exact Hallow|]. eauto.
      * intros [Hallow (cls' & sub & Heq & Hin & Hf)].
        injection Heq as <-. eauto.
    + split; [now intros [[] _]|]. now intros [_ (? & ? & ? & _)].
  - destruct (find_object_by_name polars_module "LazyFrame") as [cls|].
    + rewrite methods_dict_keys_In. split.
      * intros [(sub & Hin & Hf) Hallow]. split; [exact Hallow|]. eauto.
      * intros [Hallow (cls' & sub & Heq & Hin & Hf)].
        injection Heq as <-. eauto.
    + split; [now intros [[] _]|]. now intros [_ (? & ? & ? & _)].
Qed.

(** ** More on the normaliser *)

(** X8: normalisation does not see how an attribute chain is nested: a
    nested chain may be replaced by its own values, in place. *)
Theorem normalization_ignores_nesting before inner after :
  normalize_returns
    (Some (ExprAttribute (before ++ ExprAttribute inner :: after))) =
  normalize_returns (Some (ExprAttribute (before ++ inner ++ after))).
Proof.
  cbn [normalize_returns]. do 2 f_equal.
  rewrite !flatten_app, flatten_cons.
  change (Reference.contributes (ExprAttribute inner))
    with (Reference.flatten inner).
  now rewrite <- (flatten_refines inner).
Qed.

(** ** More on the synthesised text *)

Lemma NoDup_map_inj_in {A B} (f : A -> B) xs :
  (forall x y, In x xs -> In y xs -> f x = f y -> x = y) ->
  NoDup xs -> NoDup (map f xs).
Proof.
  intros Hinj Hxs. induction Hxs as [|x xs Hx _ IH]; cbn [map]; constructor.
  - intros Hin. apply in_map_iff in Hin. destruct Hin as (y & Heq & Hy).
    apply Hinj in Heq; [|now right|now left]. now subst.
  - apply IH. intros a b Ha Hb. apply Hinj; now right.
Qed.

Lemma tokens_NoDup methods :
  (forall m, In m methods -> In m allowed_methods) ->
  NoDup methods -> NoDup (map Py.upper methods).
Proof.
  intros Hallowed. apply NoDup_map_inj_in.
  intros x y Hx Hy. apply upper_allowed_inj; auto.
Qed.

Lemma generate_of_methods set_iter api1 api2 :
  df_methods api1 = df_methods api2 ->
  lf_methods api1 = lf_methods api2 ->
  generate_lark_grammar set_iter api1 = generate_lark_grammar set_iter api2.
Proof.
  intros Hdf Hlf.
  unfold generate_lark_grammar, method_rules, recognized_methods,
    df_call_rule, lf_call_rule, df_method_call_tokens,
    lf_method_call_tokens, dataframe_methods, lazyframe_methods.
  now rewrite Hdf, Hlf.
Qed.

(** X10: the synthesiser reads the [DataFrame] and [LazyFrame] entries
    only: storing anything under another class name (as the reflector does
    for [Expr]) leaves the text unchanged. *)
Theorem other_classes_are_ignored set_iter api cls_name methods :
  cls_name <> "DataFrame" -> cls_name <> "LazyFrame" ->
  generate_lark_grammar set_iter (Py.set api cls_name methods) =
  generate_lark_grammar set_iter api.
Proof.
  intros Hdf Hlf. apply generate_of_methods.
  - unfold df_methods, Py.get_default. rewrite get_set.
    now destruct (String.eqb_spec cls_name "DataFrame").
  - unfold lf_methods, Py.get_default. rewrite get_set.
    now destruct (String.eqb_spec cls_name "LazyFrame").
Qed.

(** X11: in the grammar built from any member tree, neither alternation
    rule lists a terminal twice. *)
Theorem alternations_list_no_terminal_twice polars_module :
  NoDup (df_method_call_tokens (build_polars_api_map polars_module))
  /\ NoDup (lf_method_call_tokens (build_polars_api_map polars_module)).
Proof.
  unfold df_method_call_tokens, lf_method_call_tokens.
  split; apply tokens_NoDup;
    try apply dataframe_methods_allowed; try apply lazyframe_methods_allowed;
    unfold dataframe_methods, lazyframe_methods, df_methods, lf_methods;
    apply NoDup_filter; rewrite built_class_methods by (cbn; tauto);
    destruct (find_object_by_name polars_module _);
    try apply methods_dict_keys_NoDup; constructor.
Qed.

Section Shape.

Variable set_iter : list string -> list string.
Hypothesis set_iter_NoDup : forall xs, NoDup (set_iter xs).
Hypothesis set_iter_In : forall xs x, In x (set_iter xs) <-> In x xs.

(** X9: the size of the text does not grow with the API: it has the 22
    lines of the templates and alternation rules plus one line per
    recognized method (one empty line when there is none), at most 28
    lines in all. *)
Theorem grammar_line_count api :
  List.length (split_lines (generate_lark_grammar set_iter api)) =
    22 + Nat.max 1 (List.length (recognized_methods set_iter api))
  /\ List.length (recognized_methods set_iter api) <= 6.
Proof.
  assert (Hbound : List.length (recognized_methods set_iter api) <= 6).
  { change 6 with (List.length allowed_methods).
    apply NoDup_incl_length; [apply set_iter_NoDup|].
    intros m Hm. eapply recognized_allowed; eauto. }
  split; [|exact Hbound].
  rewrite (generate_lines set_iter set_iter_In).
  rewrite !length_app. unfold method_rules.
  destruct (recognized_methods set_iter api) as [|m ms];
    cbn [map List.length]; rewrite ?length_map; cbn; lia.
Qed.

(** X12: the terminal table of the text is well formed: no terminal name
    is defined twice, and every name an alternation rule lists is defined
    as a pattern. *)
Theorem terminal_names_are_distinct_and_defined api :
  NoDup (map fst (terminals set_iter api))
  /\ forall t, In t (df_method_call_tokens api ++ lf_method_call_tokens api)%list ->
       exists items, In (t, Lark.Pattern items) (terminals set_iter api).
Proof.
  split.
  - unfold terminals. rewrite !map_app, map_map. cbn [map fst app].
    assert (Hnames : NoDup (map Py.upper (recognized_methods set_iter api))).
    { apply tokens_NoDup; [|apply set_iter_NoDup].
      intros m Hm. eapply recognized_allowed; eauto. }
    assert (Hfixed : forall t, In t fixed_terminals ->
                       ~ In t (map Py.upper (recognized_methods set_iter api))).
    { intros t Ht Hin. apply in_map_iff in Hin. destruct Hin as (m & <- & Hm).
      eapply upper_allowed_not_fixed; [|exact Ht].
      eapply recognized_allowed; eauto. }
    change (map (fun x => fst (method_terminal x)))
      with (map Py.upper).
    constructor; [|constructor].
    + cbn [In]. rewrite in_app_iff. cbn [In].
      intros [H|[H|[H|[H|[]]]]]; try discriminate H.
      apply (Hfixed "DATAFRAME_CALL"); [cbn; tauto|exact H].
    + rewrite in_app_iff. cbn [In].
      intros [H|[H|[H|[]]]]; try discriminate H.
      apply (Hfixed "LAZYFRAME_CALL"); [cbn; tauto|exact H].
    + apply NoDup_app; [exact Hnames| |].
      * repeat constructor; cbn; intuition discriminate.
      * intros t Ht [<-|[<-|[]]];
          [apply (Hfixed "DF_METHOD_CALL")|apply (Hfixed "LF_METHOD_CALL")];
          cbn; tauto.
  - intros t Ht. apply in_app_or in Ht.
    assert (Hm : exists m, t = Py.upper m
                           /\ In m (recognized_methods set_iter api)).
    { unfold df_method_call_tokens, lf_method_call_tokens in Ht.
      rewrite !in_map_iff in Ht.
      destruct Ht as [(m & <- & Hm)|(m & <- & Hm)]; exists m;
        (split; [reflexivity|]); unfold recognized_methods;
        apply set_iter_In, in_or_app; auto. }
    destruct Hm as (m & -> & Hm). exists (method_pattern m).
    apply (terminals_In set_iter). right. right. left. now exists m.
Qed.

End Shape.

(** ** The language of the generated grammar *)

(** Equality of two texts up to re-association of their pieces. *)
Ltac text_eq :=
  cbn [String.concat]; rewrite ?append_assoc, ?append_nil_r; reflexivity.

Section Derivations.

Variable set_iter : list string -> list string.
Hypothesis set_iter_In : forall xs x, In x (set_iter xs) <-> In x xs.

Lemma token_builder_call api call :
  Lark.token (terminals set_iter api) "DF_METHOD_CALL" call <->
  builder_call api call.
Proof. apply (token_df_method_call set_iter set_iter_In). Qed.

Lemma token_lazy_call api call :
  Lark.token (terminals set_iter api) "LF_METHOD_CALL" call <->
  lazy_call api call.
Proof. apply (token_lf_method_call set_iter set_iter_In). Qed.

Lemma forall_tokens (P Q : string -> Prop) calls :
  (forall c, P c <-> Q c) -> Forall P calls <-> Forall Q calls.
Proof.
  intros Hiff. split; intros H; eapply Forall_impl; try exact H;
    intros c; apply Hiff.
Qed.

Lemma derives_calls api s :
  derives set_iter api s <->
  exists args, no_rparen args = true
    /\ ((exists calls,
           s = "pl.DataFrame(" ++ args ++ ")" ++ String.concat EmptyString calls
           /\ Forall (builder_call api) calls)
        \/ (exists calls,
              s = "pl.DataFrame(" ++ args ++ ")" ++ ".lazy()"
                    ++ String.concat EmptyString calls
              /\ Forall (lazy_call api) calls)).
Proof.
  unfold derives, Lark.start, Lark.polars_expression,
    Lark.dataframe_expression, Lark.lazyframe_expression,
    Lark.dataframe_chain, Lark.lazyframe_chain.
  split.
  - intros [(call & rest & -> & Hcall & Hrest)
           |(call & lazy & rest & -> & Hcall & Hlazy & Hrest)];
      apply (token_dataframe_call set_iter set_iter_In) in Hcall;
      destruct Hcall as (args & Hargs & ->); exists args;
      (split; [exact Hargs|]).
    + left. destruct Hrest as [->|(calls & _ & -> & Hcalls)].
      * exists []. split; [text_eq|constructor].
      * exists calls. split; [text_eq|].
        eapply forall_tokens; [|exact Hcalls].
        intros c. symmetry. apply token_builder_call.
    + right. apply (token_lazyframe_call set_iter set_iter_In) in Hlazy.
      subst lazy. destruct Hrest as [->|(calls & _ & -> & Hcalls)].
      * exists []. split; [text_eq|constructor].
      * exists calls. split; [text_eq|].
        eapply forall_tokens; [|exact Hcalls].
        intros c. symmetry. apply token_lazy_call.
  - intros (args & Hargs & [(calls & -> & Hcalls)|(calls & -> & Hcalls)]).
    + left. exists ("pl.DataFrame(" ++ args ++ ")"),
                   (String.concat EmptyString calls).
      split; [text_eq|]. split.
      * apply (token_dataframe_call set_iter set_iter_In). now exists args.
      * destruct calls as [|c calls]; [now left|right].
        exists (c :: calls). split; [discriminate|]. split; [reflexivity|].
        eapply forall_tokens; [|exact Hcalls]. apply token_builder_call.
    + right. exists ("pl.DataFrame(" ++ args ++ ")"), ".lazy()",
                    (String.concat EmptyString calls).
      split; [text_eq|]. split; [|split].
      * apply (token_dataframe_call set_iter set_iter_In). now exists args.
      * now apply (token_lazyframe_call set_iter set_iter_In).
      * destruct calls as [|c calls]; [now left|right].
        exists (c :: calls). split; [discriminate|]. split; [reflexivity|].
        eapply forall_tokens; [|exact Hcalls]. apply token_lazy_call.
Qed.

End Derivations.



(** ** Closing parentheses *)

Lemma rparen_position b : forall p t r,
  no_rparen b = true ->
  b ++ ")" ++ t = p ++ ")" ++ r ->
  (p = b /\ r = t) \/ exists p', p = b ++ ")" ++ p' /\ t = p' ++ ")" ++ r.
Proof.
  induction b as [|c b IH]; intros [|c' p] t r Hb Heq;
    cbn [append no_rparen] in *.
  - left. injection Heq as Heq. now split.
  - right. injection Heq as Hc Heq. subst c'. now exists p.
  - injection Heq as Hc _. subst c. discriminate Hb.
  - injection Heq as Hc Heq. subst c'. apply andb_true_iff in Hb.
    destruct (IH p t r (proj2 Hb) Heq) as [[-> ->]|(p' & -> & ->)].
    + left. now split.
    + right. now exists p'.
Qed.

Lemma rparen_free_prefix b : forall p t r,
  no_rparen b = true ->
  b ++ t = p ++ ")" ++ r ->
  exists p', p = b ++ p' /\ t = p' ++ ")" ++ r.
Proof.
  induction b as [|c b IH]; intros p t r Hb Heq; cbn [append no_rparen] in *.
  - now exists p.
  - apply andb_true_iff in Hb. destruct p as [|c' p]; cbn [append] in Heq.
    + injection Heq as Hc _. subst c. now destruct Hb.
    + injection Heq as Hc Heq. subst c'.
      destruct (IH p t r (proj2 Hb) Heq) as (p' & -> & ->). now exists p'.
Qed.

Lemma concat_boundary pieces :
  Forall call_shaped pieces ->
  call_boundary (String.concat EmptyString pieces).
Proof.
  intros [|c rest (d & tail & -> & Hd & _) _]; [now left|].
  rewrite concat_empty_cons. right. cbn [append]. eauto.
Qed.

Lemma followers pieces :
  Forall call_shaped pieces ->
  forall b0 p r,
    no_rparen b0 = true ->
    b0 ++ String.concat EmptyString pieces = p ++ ")" ++ r ->
    call_boundary r.
Proof.
  induction 1 as [|c rest (d & tail & -> & Hd & Htail) Hrest IH];
    intros b0 p r Hb0 Heq.
  - apply rparen_free_prefix in Heq; [|exact Hb0].
    destruct Heq as ([|? ?] & _ & Heq); discriminate Heq.
  - rewrite concat_empty_cons in Heq.
    assert (Hb1 : no_rparen (b0 ++ String d EmptyString) = true).
    { rewrite no_rparen_app, Hb0. now destruct Hd as [->| ->]. }
    destruct Htail as [(body & Hbody & ->)|Htail].
    + replace (b0 ++ String d (body ++ ")")
                 ++ String.concat EmptyString rest)
        with (((b0 ++ String d EmptyString) ++ body) ++ ")"
                ++ String.concat EmptyString rest) in Heq
        by (cbn [append]; rewrite ?append_assoc; reflexivity).
      apply rparen_position in Heq; [|now rewrite no_rparen_app, Hb1].
      destruct Heq as [[_ ->]|(p' & _ & Heq)].
      * now apply concat_boundary.
      * now apply (IH EmptyString p' r).
    + replace (b0 ++ String d tail ++ String.concat EmptyString rest)
        with (((b0 ++ String d EmptyString) ++ tail)
                ++ String.concat EmptyString rest) in Heq
        by (cbn [append]; rewrite ?append_assoc; reflexivity).
      apply (IH _ p r) in Heq; [exact Heq|].
      now rewrite no_rparen_app, Hb1.
Qed.

Lemma allowed_no_rparen m : In m allowed_methods -> no_rparen m = true.
Proof. intros H. cbv [allowed_methods] in H. each_member H; reflexivity. Qed.

Lemma role_call_shaped methods placeholder call :
  (forall m, In m methods -> In m allowed_methods) ->
  placeholder = "NO_DF_METHODS" \/ placeholder = "NO_LF_METHODS" ->
  role_call methods placeholder call -> call_shaped call.
Proof.
  intros Hallowed Hph [[_ ->]|(m & args & Hm & Hargs & ->)].
  - destruct Hph as [->| ->]; eexists _, _;
      (split; [reflexivity|]); (split; [now right|]); now right.
  - exists "."%char, (m ++ "(" ++ args ++ ")").
    split; [reflexivity|]. split; [now left|]. left.
    exists (m ++ "(" ++ args). split.
    + rewrite !no_rparen_app, Hargs, (allowed_no_rparen m) by auto.
      reflexivity.
    + now rewrite !append_assoc.
Qed.

Lemma calls_shaped api calls :
  (Forall (builder_call api) calls -> Forall call_shaped calls)
  /\ (Forall (lazy_call api) calls -> Forall call_shaped calls).
Proof.
  split; intros H; eapply Forall_impl; try exact H; intros c Hc.
  - eapply role_call_shaped; [apply dataframe_methods_allowed| |exact Hc].
    now left.
  - eapply role_call_shaped; [apply lazyframe_methods_allowed| |exact Hc].
    now right.
Qed.

Lemma closing_parenthesis_boundary set_iter api s p r :
  (forall xs x, In x (set_iter xs) <-> In x xs) ->
  derives set_iter api s -> s = p ++ ")" ++ r -> call_boundary r.
Proof.
  intros Hin Hs Heq. apply (derives_calls set_iter Hin) in Hs.
  destruct Hs as (args & Hargs & [(calls & -> & Hcalls)|(calls & -> & Hcalls)]).
  - apply (proj1 (calls_shaped api calls)) in Hcalls.
    replace ("pl.DataFrame(" ++ args ++ ")" ++ String.concat EmptyString calls)
      with (("pl.DataFrame(" ++ args) ++ ")"
              ++ String.concat EmptyString calls) in Heq
      by (rewrite ?append_assoc; reflexivity).
    apply rparen_position in Heq; [|now rewrite no_rparen_app, Hargs].
    destruct Heq as [[_ ->]|(p' & _ & Heq)].
    + now apply concat_boundary.
    + now apply (followers calls Hcalls EmptyString p' r).
  - apply (proj2 (calls_shaped api calls)) in Hcalls.
    assert (Hpieces : Forall call_shaped (".lazy()" :: calls)).
    { constructor; [|exact Hcalls]. exists "."%char, "lazy()".
      split; [reflexivity|]. split; [now left|]. left. now exists "lazy(". }
    replace ("pl.DataFrame(" ++ args ++ ")" ++ ".lazy()"
               ++ String.concat EmptyString calls)
      with (("pl.DataFrame(" ++ args) ++ ")"
              ++ String.concat EmptyString (".lazy()" :: calls)) in Heq
      by (rewrite concat_empty_cons, ?append_assoc; reflexivity).
    apply rparen_position in Heq; [|now rewrite no_rparen_app, Hargs].
    destruct Heq as [[_ ->]|(p' & _ & Heq)].
    + now apply concat_boundary.
    + now apply (followers _ Hpieces EmptyString p' r).
Qed.

(** X15: in every derived input a closing parenthesis ends a call: it is
    the last character or is followed by the dot of the next call (or by
    the N of a placeholder).  An argument text therefore never holds a
    nested call. *)
Theorem closing_parenthesis_ends_a_call set_iter api s p r :
  (forall xs x, In x (set_iter xs) <-> In x xs) ->
  derives set_iter api s -> s = p ++ ")" ++ r -> call_boundary r.
Proof. apply closing_parenthesis_boundary. Qed.

(** X18: no API map makes the grammar derive the second snippet that
    [test_valid_snippets] expects to parse: the argument of its [filter]
    call holds the nested call [pl.col("x")], whose closing parenthesis is
    followed by a blank. *)
Theorem nested_call_snippet_is_rejected set_iter api :
  (forall xs x, In x (set_iter xs) <-> In x xs) ->
  ~ derives set_iter api nested_call_snippet.
Proof.
  intros Hin Hs.
  assert (Hb : call_boundary " > 1)").
  { apply (closing_parenthesis_boundary set_iter api nested_call_snippet
             ("pl.DataFrame({" ++ quoted "x" ++ ": [1,2,3]}).filter(pl.col("
                ++ quoted "x")); [exact Hin|exact Hs|reflexivity]. }
  destruct Hb as [Hb|(d & rest & Hb & [->| ->])]; discriminate Hb.
Qed.

(** ** Chains of calls *)

Lemma split_at_char c a : forall a' r r',
  lacks c a = true -> lacks c a' = true ->
  a ++ String c r = a' ++ String c r' -> a = a' /\ r = r'.
Proof.
  induction a as [|d a IH]; intros [|d' a'] r r' Ha Ha' Heq;
    cbn [append lacks] in *.
  - injection Heq as Heq. now split.
  - injection Heq as Hc _. subst d'. rewrite Ascii.eqb_refl in Ha'.
    discriminate Ha'.
  - injection Heq as Hc _. subst d. rewrite Ascii.eqb_refl in Ha.
    discriminate Ha.
  - injection Heq as Hc Heq. subst d'.
    apply andb_true_iff in Ha, Ha'.
    destruct (IH a' r r') as [-> ->]; tauto.
Qed.

Lemma allowed_lacks_lparen m :
  In m allowed_methods -> lacks "("%char m = true.
Proof. intros H. cbv [allowed_methods] in H. each_member H; reflexivity. Qed.

Lemma plain_call_iff call :
  plain_call call = true <->
  lacks "("%char (fst call) = true /\ no_rparen (snd call) = true.
Proof. unfold plain_call. apply andb_true_iff. Qed.

(** Two texts that start with a call agree on the method, the argument
    and what follows. *)
Lemma call_head m a t m' a' t' :
  lacks "("%char m = true -> lacks "("%char m' = true ->
  no_rparen a = true -> no_rparen a' = true ->
  ("." ++ m ++ "(" ++ a ++ ")") ++ t = ("." ++ m' ++ "(" ++ a' ++ ")") ++ t' ->
  m = m' /\ a = a' /\ t = t'.
Proof.
  intros Hm Hm' Ha Ha' Heq.
  rewrite !append_assoc in Heq. cbn [append] in Heq. injection Heq as Heq.
  apply split_at_char in Heq; [|exact Hm|exact Hm'].
  destruct Heq as [-> Heq].
  apply split_at_rparen in Heq; [|exact Ha|exact Ha'].
  destruct Heq as [-> ->]. now repeat split.
Qed.

Lemma chain_calls methods placeholder :
  (forall m, In m methods -> In m allowed_methods) ->
  (exists t, placeholder = String "N" t) ->
  forall chain calls,
    Forall (fun c => plain_call c = true) chain ->
    Forall (role_call methods placeholder) calls ->
    String.concat EmptyString (map render_call chain) =
    String.concat EmptyString calls ->
    Forall (fun c => In (fst c) methods) chain.
Proof.
  intros Hallowed (t & ->).
  induction chain as [|[m a] chain IH]; intros calls Hplain Hcalls Heq;
    [constructor|].
  inversion Hplain as [|? ? Hma Hplain']; subst.
  apply plain_call_iff in Hma. cbn [fst snd] in Hma. destruct Hma as [Hm Ha].
  cbn [map] in Heq. rewrite concat_empty_cons in Heq.
  unfold render_call at 1 in Heq. cbn [fst snd] in Heq.
  destruct calls as [|c calls]; [discriminate Heq|].
  rewrite concat_empty_cons in Heq.
  inversion Hcalls as [|? ? Hc Hcalls']; subst.
  destruct Hc as [[_ ->]|(m' & a' & Hm' & Ha' & ->)]; [discriminate Heq|].
  apply call_head in Heq; auto using allowed_lacks_lparen.
  destruct Heq as (-> & -> & Heq).
  constructor; [exact Hm'|]. now apply (IH calls).
Qed.

Lemma rendered_calls methods placeholder chain :
  Forall (fun c => plain_call c = true) chain ->
  Forall (fun c => In (fst c) methods) chain ->
  Forall (role_call methods placeholder) (map render_call chain).
Proof.
  intros Hplain Hin. apply Forall_forall. intros c Hc.
  apply in_map_iff in Hc. destruct Hc as ([m a] & <- & Hma).
  rewrite Forall_forall in Hplain, Hin.
  specialize (Hplain _ Hma). specialize (Hin _ Hma).
  apply plain_call_iff in Hplain. right. exists m, a. tauto.
Qed.

Lemma chain_derives_iff set_iter api args chain :
  (forall xs x, In x (set_iter xs) <-> In x xs) ->
  no_rparen args = true ->
  Forall (fun c => plain_call c = true) chain ->
  (derives set_iter api (chain_text args chain) <->
   Forall (fun c => In (fst c) (dataframe_methods api)) chain
   \/ exists rest, chain = ("lazy", EmptyString) :: rest
        /\ Forall (fun c => In (fst c) (lazyframe_methods api)) rest).
Proof.
  intros Hin Hargs Hplain. rewrite (derives_calls set_iter Hin). split.
  - intros (args' & Hargs' & Hcases).
    assert (Hsplit : forall rest,
              chain_text args chain = "pl.DataFrame(" ++ args' ++ ")" ++ rest ->
              String.concat EmptyString (map render_call chain) = rest).
    { intros rest Heq. unfold chain_text in Heq.
      apply append_cancel_l in Heq.
      apply split_at_rparen in Heq; [|exact Hargs|exact Hargs'].
      now destruct Heq. }
    destruct Hcases as [(calls & Heq & Hcalls)|(calls & Heq & Hcalls)];
      apply Hsplit in Heq.
    + left. eapply chain_calls; eauto using dataframe_methods_allowed.
    + right. destruct chain as [|[m a] rest]; [discriminate Heq|].
      inversion Hplain as [|? ? Hma Hplain']; subst.
      apply plain_call_iff in Hma. cbn [fst snd] in Hma.
      cbn [map] in Heq. rewrite concat_empty_cons in Heq.
      change ".lazy()" with ("." ++ "lazy" ++ "(" ++ EmptyString ++ ")") in Heq.
      unfold render_call at 1 in Heq. cbn [fst snd] in Heq.
      apply call_head in Heq; try tauto; try reflexivity.
      destruct Heq as (-> & -> & Heq). exists rest. split; [reflexivity|].
      eapply chain_calls; eauto using lazyframe_methods_allowed.
  - intros [Hall|(rest & -> & Hall)]; exists args; (split; [exact Hargs|]).
    + left. exists (map render_call chain). split; [reflexivity|].
      now apply rendered_calls.
    + right. exists (map render_call rest). split.
      * unfold chain_text. cbn [map]. now rewrite concat_empty_cons.
      * inversion Hplain; subst. now apply rendered_calls.
Qed.


(** X17: [main] gets through its parsing step exactly when the node the
    search finds for [DataFrame] has function-like members named [filter]
    and [select]; otherwise parsing the snippet of line 197 fails. *)
Theorem main_parses_iff set_iter polars_module :
  (forall xs x, In x (set_iter xs) <-> In x xs) ->
  (main_parses set_iter polars_module <->
   exists cls_obj filter_obj select_obj,
     find_object_by_name polars_module "DataFrame" = Some cls_obj
     /\ In ("filter", filter_obj) (members cls_obj)
     /\ is_function filter_obj = true
     /\ In ("select", select_obj) (members cls_obj)
     /\ is_function select_obj = true).
Proof.
  intros Hin. unfold main_parses.
  change test_snippet
    with (chain_text ("{" ++ quoted "x" ++ ":[1,2,3]}")
            [("filter", "x>1"); ("select", "[" ++ quoted "x" ++ "]")]).
  rewrite (chain_derives_iff set_iter _ _ _ Hin)
    by (try reflexivity; repeat constructor).
  assert (Hmethods : forall m, In m known_df_methods ->
            (In m (dataframe_methods (build_polars_api_map polars_module)) <->
             exists cls_obj subobj,
               find_object_by_name polars_module "DataFrame" = Some cls_obj
               /\ In (m, subobj) (members cls_obj)
               /\ is_function subobj = true)).
  { intros m Hm. unfold dataframe_methods, df_methods.
    rewrite filter_mem_In, built_class_methods by (cbn; tauto).
    destruct (find_object_by_name polars_module "DataFrame") as [cls|].
    - rewrite methods_dict_keys_In. split.
      + intros [(sub & Hsub & Hf) _]. eauto.
      + intros (cls' & sub & Heq & Hsub & Hf). injection Heq as <-. eauto.
    - split; [now intros [[] _]|now intros (? & ? & ? & _)]. }
  split.
  - intros [Hall|(rest & Heq & _)]; [|discriminate Heq].
    inversion Hall as [|? ? Hfilter Hall']; subst.
    inversion Hall' as [|? ? Hselect _]; subst. cbn [fst] in *.
    apply Hmethods in Hfilter; [|cbn; tauto].
    apply Hmethods in Hselect; [|cbn; tauto].
    destruct Hfilter as (cls & f & Hcls & Hf & Hff).
    destruct Hselect as (cls' & s & Hcls' & Hs & Hsf).
    rewrite Hcls in Hcls'. injection Hcls' as <-. exists cls, f, s. auto.
  - intros (cls & f & s & Hcls & Hf & Hff & Hs & Hsf). left.
    repeat constructor; cbn [fst]; apply Hmethods; cbn; eauto 10.
Qed.

(** ** Recursion depth *)

Lemma find_object_by_name_fuel_unfold fuel module target :
  find_object_by_name_fuel (S fuel) module target =
  if Py.endswith (name module) target then Some (Some module)
  else match find (fun member => Py.endswith (name member) target)
                  (Py.values (members module)) with
       | Some member => Some (Some member)
       | None =>
           (fix loop (rest : list node) : option (option node) :=
              match rest with
              | [] => Some None
              | member :: rest' =>
                  match find_object_by_name_fuel fuel member target with
                  | None => None
                  | Some (Some found) => Some (Some found)
                  | Some None => loop rest'
                  end
              end) (Py.values (members module))
       end.
Proof. reflexivity. Qed.

Lemma find_object_by_name_fuel_sound target :
  forall fuel module r,
    find_object_by_name_fuel fuel module target = Some r ->
    r = find_object_by_name module target.
Proof.
  induction fuel as [|fuel IH]; intros module r Hr; [discriminate Hr|].
  rewrite find_object_by_name_fuel_unfold in Hr.
  rewrite find_object_by_name_unfold.
  destruct (Py.endswith (name module) target); [congruence|].
  destruct (find _ _); [congruence|].
  induction (Py.values (members module)) as [|child children IHc];
    cbn [search_each]; [congruence|].
  destruct (find_object_by_name_fuel fuel child target) as [[found|]|] eqn:Hc;
    try discriminate Hr.
  - apply IH in Hc. rewrite <- Hc. congruence.
  - apply IH in Hc. rewrite <- Hc. now apply IHc.
Qed.

Lemma deepest_child module :
  0 < height module ->
  exists child, In child (Py.values (members module))
                /\ height module = S (height child).
Proof.
  destruct module as [nm ms f r]. cbn [members height].
  induction ms as [|[k c] ms IH]; cbn [Py.values map snd In]; [lia|].
  intros _.
  destruct (Nat.max_spec_le (S (height c))
              ((fix go (rest : Py.dict node) : nat :=
                  match rest with
                  | [] => 0
                  | (_, child) :: rest' => Nat.max (S (height child)) (go rest')
                  end) ms)) as [[Hle ->]|[Hle ->]].
  - destruct IH as (child & Hin & Heq); [lia|]. exists child. auto.
  - exists c. auto.
Qed.

Lemma search_each_none_all target children :
  search_each target children = None ->
  forall child, In child children -> find_object_by_name child target = None.
Proof.
  induction children as [|c children IH]; cbn [search_each In]; [tauto|].
  destruct (find_object_by_name c target) eqn:Hc; [discriminate|].
  intros Hnone child [<-|Hin]; auto.
Qed.

(** X19: a search that finds nothing visits the deepest node: with a
    recursion budget not above the height of the tree it does not return
    (the call stack must hold one frame more than the tree is high). *)
Theorem failing_search_needs_the_full_depth target :
  forall fuel module,
    fuel <= height module ->
    find_object_by_name module target = None ->
    find_object_by_name_fuel fuel module target = None.
Proof.
  induction fuel as [|fuel IH]; intros module Hfuel Hnone; [reflexivity|].
  destruct (deepest_child module) as (deep & Hdeep & Hheight); [lia|].
  rewrite find_object_by_name_fuel_unfold.
  rewrite find_object_by_name_unfold in Hnone.
  destruct (Py.endswith (name module) target); [discriminate Hnone|].
  destruct (find _ _); [discriminate Hnone|].
  pose proof (search_each_none_all target _ Hnone) as Hall.
  clear Hnone. revert Hdeep Hall.
  induction (Py.values (members module)) as [|child children IHc];
    intros Hdeep Hall; [destruct Hdeep|].
  destruct (find_object_by_name_fuel fuel child target) as [[found|]|] eqn:Hc;
    [|destruct Hdeep as [->|Hdeep]|reflexivity].
  - apply find_object_by_name_fuel_sound in Hc.
    rewrite (Hall child) in Hc by now left. discriminate Hc.
  - rewrite IH in Hc; [discriminate Hc|lia|apply Hall; now left].
  - apply IHc; [exact Hdeep|]. intros c Hin. apply Hall. now right.
Qed.

(** ** The further properties at concrete inputs *)

Lemma search_matches_by_suffix_witness :
  exists n,
    find_object_by_name demo_module "Frame" = Some n
    /\ in_tree n demo_module /\ exists prefix, name n = prefix ++ "Frame".
Proof.
  eexists. split; [reflexivity|].
  apply (search_matches_by_suffix demo_module "Frame"). reflexivity.
Defined.

Lemma resolved_class_lookup_witness :
  exists cls_obj,
    In "LazyFrame" interesting_classes
    /\ find_object_by_name demo_module "LazyFrame" = Some cls_obj
    /\ Py.get (build_polars_api_map demo_module) "LazyFrame" =
       Some (methods_dict cls_obj).
Proof.
  eexists. split; [cbn; tauto|]. split; [reflexivity|].
  apply (resolved_class_lookup demo_module "LazyFrame");
    [cbn; tauto|reflexivity].
Defined.

Lemma methods_dict_of_distinct_members_witness :
  NoDup (Py.keys (members demo_class))
  /\ methods_dict demo_class =
     map (fun '(subname, subobj) =>
            (subname, normalize_returns (returns subobj)))
         (filter (fun '(_, subobj) => is_function subobj) (members demo_class)).
Proof.
  assert (Hdistinct : NoDup (Py.keys (members demo_class)))
    by (repeat constructor; cbn; intuition discriminate).
  split; [exact Hdistinct|].
  exact (methods_dict_of_distinct_members demo_class Hdistinct).
Defined.

Lemma other_classes_are_ignored_witness :
  "Expr" <> "DataFrame" /\ "Expr" <> "LazyFrame"
  /\ generate_lark_grammar insertion_order
       (Py.set demo_api "Expr" [("alias", Some "Expr")]) =
     generate_lark_grammar insertion_order demo_api.
Proof.
  split; [discriminate|]. split; [discriminate|].
  apply other_classes_are_ignored; discriminate.
Defined.

Lemma grammar_line_count_witness :
  (forall xs, NoDup (insertion_order xs))
  /\ (forall xs x, In x (insertion_order xs) <-> In x xs)
  /\ List.length (split_lines (generate_lark_grammar insertion_order demo_api)) =
       22 + Nat.max 1 (List.length (recognized_methods insertion_order demo_api))
  /\ List.length (recognized_methods insertion_order demo_api) <= 6.
Proof.
  split; [exact insertion_order_NoDup|].
  split; [exact insertion_order_In|].
  exact (grammar_line_count insertion_order insertion_order_NoDup
           insertion_order_In demo_api).
Defined.

Lemma terminal_names_are_distinct_and_defined_witness :
  (forall xs, NoDup (reverse_insertion_order xs))
  /\ (forall xs x, In x (reverse_insertion_order xs) <-> In x xs)
  /\ NoDup (map fst (terminals reverse_insertion_order demo_api)).
Proof.
  split; [exact reverse_insertion_order_NoDup|].
  split; [exact reverse_insertion_order_In|].
  exact (proj1 (terminal_names_are_distinct_and_defined
                  reverse_insertion_order reverse_insertion_order_NoDup
                  reverse_insertion_order_In demo_api)).
Defined.



Lemma closing_parenthesis_ends_a_call_witness :
  (forall xs x, In x (insertion_order xs) <-> In x xs)
  /\ derives insertion_order demo_api lazy_snippet
  /\ lazy_snippet =
     ("pl.DataFrame({" ++ quoted "x" ++ ": [1,2,3]}).lazy(") ++ ")"
       ++ (".filter(x > 1).select(" ++ quoted "x" ++ ")")
  /\ call_boundary (".filter(x > 1).select(" ++ quoted "x" ++ ")").
Proof.
  split; [exact insertion_order_In|].
  split; [exact lazy_snippet_is_derived|]. split; [reflexivity|].
  exact (closing_parenthesis_ends_a_call insertion_order demo_api lazy_snippet
           ("pl.DataFrame({" ++ quoted "x" ++ ": [1,2,3]}).lazy(")
           (".filter(x > 1).select(" ++ quoted "x" ++ ")")
           insertion_order_In lazy_snippet_is_derived eq_refl).
Defined.

Lemma nested_call_snippet_is_rejected_witness :
  (forall xs x, In x (insertion_order xs) <-> In x xs)
  /\ ~ derives insertion_order demo_api nested_call_snippet.
Proof.
  split; [exact insertion_order_In|].
  exact (nested_call_snippet_is_rejected insertion_order demo_api
           insertion_order_In).
Defined.


Lemma main_parses_iff_witness :
  (forall xs x, In x (insertion_order xs) <-> In x xs)
  /\ ~ main_parses insertion_order demo_module.
Proof.
  split; [exact insertion_order_In|].
  intros Hmain.
  apply (main_parses_iff insertion_order demo_module insertion_order_In)
    in Hmain.
  destruct Hmain as (cls & f & s & Hcls & _ & _ & Hs & _).
  vm_compute in Hcls. injection Hcls as <-.
  cbn [members In] in Hs. intuition discriminate.
Defined.

Lemma failing_search_needs_the_full_depth_witness :
  1 <= height bare_module
  /\ find_object_by_name bare_module "DataFrame" = None
  /\ find_object_by_name_fuel 1 bare_module "DataFrame" = None.
Proof.
  split; [cbn; lia|]. split; [reflexivity|].
  apply failing_search_needs_the_full_depth; [cbn; lia|reflexivity].
Defined.
